(** * babel-plugin-metalog: a shallow embedding of [src/index.js]

    The plugin rewrites labeled statements ([debug: expr;] and friends)
    into calls of a global log function that carry call-site metadata, or
    removes them when the strip policy says so.

    Conventions of the embedding.
    - JavaScript strings are [string]s of 8-bit characters; [toLowerCase],
      [trim] and the [\s] class are modelled on their ASCII range.
    - An AST node is a value of the single type [Node] (Babel's nodes are
      untyped objects with a [type] tag).
    - A JavaScript exception is the [Throw] case of [Result]; the code
      has no [catch], so a throw propagates to the caller of the visitor.
    - What the plugin closure captures from its host (environment
      variables, working directory, path resolution, the template parser)
      is the record [Plugin]. *)

From Stdlib Require Import String Ascii List Bool Arith Lia.
From Stdlib Require Import Decimal DecimalString.
Import ListNotations.
Open Scope string_scope.
Open Scope list_scope.

Set Implicit Arguments.
Set Warnings "-register-all".

(** ** Exceptions *)

Inductive Error : Type :=
| CodeFrameError (line : nat) (message : string)
| TypeError (message : string).

Inductive Result (A : Type) : Type :=
| Return (a : A)
| Throw (e : Error).

Arguments Return {A} a.
Arguments Throw {A} e.

Definition bind {A B : Type} (r : Result A) (k : A -> Result B) : Result B :=
  match r with
  | Return a => k a
  | Throw e => Throw e
  end.

Notation "x <- r ;; k" := (bind r (fun x => k))
  (at level 61, r at next level, right associativity).

(** [Array.prototype.some] with a callback that may throw: the callback
    runs on the elements in order and the first [true] or the first
    exception ends the loop. *)
Fixpoint some {A : Type} (f : A -> Result bool) (l : list A) : Result bool :=
  match l with
  | [] => Return false
  | x :: l' => b <- f x ;; if b then Return true else some f l'
  end.

(** Sequencing a list of computations, left to right. *)
Definition mapM {A B : Type} (f : A -> Result B) : list A -> Result (list B) :=
  fix go (l : list A) : Result (list B) :=
    match l with
    | [] => Return []
    | x :: l' => y <- f x ;; ys <- go l' ;; Return (y :: ys)
    end.

(** ** Strings *)

(** Strings are taken as ASCII text.  On it [toLowerCase] maps the
    letters [A]-[Z] and keeps every other character, and the white
    space of [\s] and of [trim] is the tab, the line feed, the vertical
    tab, the form feed, the carriage return and the space.  JavaScript
    also maps letters and drops white space outside ASCII, which the
    model leaves as they are. *)
Definition lowerAscii (c : ascii) : ascii :=
  let n := nat_of_ascii c in
  if (Nat.leb 65 n && Nat.leb n 90)%bool then ascii_of_nat (n + 32) else c.

Fixpoint toLowerCase (s : string) : string :=
  match s with
  | EmptyString => EmptyString
  | String c s' => String (lowerAscii c) (toLowerCase s')
  end.

(** [s.indexOf(sub)]: [None] stands for [-1]. *)
Definition indexOf (s sub : string) : option nat := String.index 0 sub s.

Definition found (i : option nat) : bool :=
  match i with Some _ => true | None => false end.

Definition isSpace (c : ascii) : bool :=
  let n := nat_of_ascii c in
  (Nat.leb 9 n && Nat.leb n 13 || Nat.eqb n 32)%bool.

Fixpoint trimStart (s : string) : string :=
  match s with
  | String c s' => if isSpace c then trimStart s' else s
  | EmptyString => EmptyString
  end.

(** Drops the trailing white space: a character is kept when something
    that is kept follows it, or when it is not white space itself. *)
Fixpoint trimEnd (s : string) : string :=
  match s with
  | EmptyString => EmptyString
  | String c s' =>
      match trimEnd s' with
      | EmptyString => if isSpace c then EmptyString else String c EmptyString
      | rest => String c rest
      end
  end.

Definition trim (s : string) : string := trimEnd (trimStart s).

(** [input.split(/\s*,\s*/)].  The separator is a comma with the white
    space around it, so a piece never ends in white space before a comma
    and never starts with white space after one: [splitComma] cuts at
    the commas and [splitEnv] removes that white space. *)
Fixpoint splitComma (cur : string) (s : string) : list string :=
  match s with
  | EmptyString => [cur]
  | String c s' =>
      if Ascii.eqb c ","%char then cur :: splitComma EmptyString s'
      else splitComma (cur ++ String c EmptyString) s'
  end.

Fixpoint stripInner (first : bool) (l : list string) : list string :=
  match l with
  | [] => []
  | [x] => [if first then x else trimStart x]
  | x :: l' => (if first then trimEnd x else trim x) :: stripInner false l'
  end.

Definition splitEnv (input : string) : list string :=
  stripInner true (splitComma EmptyString input).

Definition nonEmpty (s : string) : bool :=
  match s with EmptyString => false | _ => true end.

(** [normalizeEnv], index.js:78-85. *)
Definition normalizeEnv (input : option string) : list string :=
  match input with
  | None => []
  | Some EmptyString => []
  | Some s => filter nonEmpty (map (fun context => trim (toLowerCase context)) (splitEnv s))
  end.

(** ** JavaScript objects used as maps

    An object literal is an association list in insertion order with
    one entry per key; assigning to an existing key keeps its place. *)

Section Objects.
Variable V : Type.

Fixpoint get (o : list (string * V)) (k : string) : option V :=
  match o with
  | [] => None
  | (k', v) :: o' => if String.eqb k' k then Some v else get o' k
  end.

Fixpoint set (o : list (string * V)) (k : string) (v : V) : list (string * V) :=
  match o with
  | [] => [(k, v)]
  | (k', v') :: o' =>
      if String.eqb k' k then (k, v) :: o' else (k', v') :: set o' k v
  end.

(** [{...o1, ...o2}] *)
Definition spread (o1 o2 : list (string * V)) : list (string * V) :=
  fold_left (fun o kv => set o (fst kv) (snd kv)) o2 o1.

Definition keys (o : list (string * V)) : list string := map fst o.
End Objects.

(** The properties every object literal inherits from
    [Object.prototype]; each of them is a truthy value. *)
Definition objectPrototype : list string :=
  [ "constructor"; "hasOwnProperty"; "isPrototypeOf"; "propertyIsEnumerable";
    "toLocaleString"; "toString"; "valueOf"; "__proto__";
    "__defineGetter__"; "__defineSetter__"; "__lookupGetter__"; "__lookupSetter__" ].

Definition inPrototype (k : string) : bool := existsb (String.eqb k) objectPrototype.

(** ** Syntax trees *)

Inductive FunctionType : Type :=
| FunctionDeclaration
| FunctionExpression
| ArrowFunctionExpression
| ObjectMethod.

(** The node kinds the plugin inspects or builds, and [Other] for every
    other kind (if, loops, member and binary expressions, ...), with its
    children in traversal order.  [line] is [node.loc.start.line];
    [handled] is the [$handled] mark of index.js:63. *)
Inductive Node : Type :=
| Identifier (name : string)
| StringLiteral (value : string)
| BooleanLiteral (value : bool)
| NumericLiteral (value : nat)
| ArrayExpression (elements : list Node)
| ObjectProperty (key value : Node)
| ObjectExpression (properties : list Node)
| CallExpression (callee : Node) (arguments : list Node)
| SequenceExpression (expressions : list Node)
| AssignmentExpression (left right : Node)
| UpdateExpression (argument : Node)
| YieldExpression (argument : option Node)
| ExpressionStatement (handled : bool) (expression : Node)
| BlockStatement (body : list Node)
| LabeledStatement (label : string) (line : nat) (body : Node)
| VariableDeclaration (declarations : list Node)
| ReturnStatement (argument : option Node)
| FunctionNode (type : FunctionType) (id : option string) (line : nat) (body : Node)
| ClassMethod (key : Node) (body : Node)
| ClassDeclaration (id : option string) (line : nat) (body : Node)
| ClassBody (body : list Node)
| Program (body : list Node)
| Other (type : string) (children : list Node).

(** The node types named by the purity visitor's key, index.js:335:
    ["VariableDeclaration|Function|AssignmentExpression|UpdateExpression|
    YieldExpression|ReturnStatement"]; Babel's [Function] alias covers
    class methods too. *)
Definition isSideEffect (n : Node) : bool :=
  match n with
  | VariableDeclaration _ | FunctionNode _ _ _ _ | ClassMethod _ _
  | AssignmentExpression _ _ | UpdateExpression _ | YieldExpression _
  | ReturnStatement _ => true
  | _ => false
  end.

(** Some node of the tree [n], [n] included, has one of those types. *)
Fixpoint containsSideEffect (n : Node) : bool :=
  match n with
  | Identifier _ | StringLiteral _ | BooleanLiteral _ | NumericLiteral _ => false
  | ArrayExpression l | ObjectExpression l | SequenceExpression l
  | BlockStatement l | ClassBody l | Program l | Other _ l =>
      existsb containsSideEffect l
  | ObjectProperty k v => containsSideEffect k || containsSideEffect v
  | CallExpression c l => containsSideEffect c || existsb containsSideEffect l
  | ExpressionStatement _ e => containsSideEffect e
  | LabeledStatement _ _ b => containsSideEffect b
  | ClassDeclaration _ _ b => containsSideEffect b
  | VariableDeclaration _ | FunctionNode _ _ _ _ | ClassMethod _ _
  | AssignmentExpression _ _ | UpdateExpression _ | YieldExpression _
  | ReturnStatement _ => true
  end.

(** ** Metadata, index.js:51-59 *)

Record Metadata : Type := {
  indent : nat;
  parentPath : list string;
  filename : string;
  filepath : string;
  hasStartMessage : bool;
  isStartMessage : bool;
  line : nat
}.

(** [metadata.context], read by index.js:298.  The record built at
    index.js:257-265 has no such property and [Object.prototype] has
    none either, so the read gives [undefined]. *)
Definition context (metadata : Metadata) : option string := None.

(** ** Templates

    The plugin receives [template] from its host (index.js:69); the
    host's code is not part of the repository.  [template(source)]
    parses [source] once and returns a function that copies the parse
    tree and replaces every identifier named by a key of its argument
    with the node stored under that key; a replaced node is not entered
    again.  An expression statement that consists of such an identifier
    is replaced as a whole.  The argument is a JavaScript value: an
    object of nodes, or whatever else the caller passes. *)

Inductive TemplateIds : Type :=
| IdsObject (ids : list (string * Node))
| IdsString (s : string).

Definition decimal (n : nat) : string := NilEmpty.string_of_uint (Nat.to_uint n).

(** The own properties of a string primitive: [length] and its indices. *)
Definition stringHas (s name : string) : bool :=
  String.eqb name "length"
  || existsb (fun i => String.eqb name (decimal i)) (seq 0 (String.length s)).

(** Modelled from the spec: the slot lookup of the host's
    compile-template primitive.  It gives the replacement found for the
    identifier [name], if any.  A slot of a string primitive holds a
    number or a string, not a node, and the template's bookkeeping on
    the replacement fails on it. *)
Definition slot (ids : TemplateIds) (name : string) : Result (option Node) :=
  match ids with
  | IdsObject o => Return (get o name)
  | IdsString s =>
      if stringHas s name
      then Throw (TypeError "Cannot create property on a primitive value")
      else Return None
  end.

Definition orElse (r : option Node) (original : Node) : Node :=
  match r with
  | Some replacement => replacement
  | None => original
  end.

(** Modelled from the spec: the host's compile-template primitive on a
    parse tree, a function from a table of named slots to the tree with
    the slots filled. *)
Fixpoint substitute (ids : TemplateIds) (n : Node) {struct n} : Result Node :=
  let all := mapM (substitute ids) in
  let optional (o : option Node) : Result (option Node) :=
    match o with
    | Some a => a' <- substitute ids a ;; Return (Some a')
    | None => Return None
    end in
  match n with
  | Identifier name => r <- slot ids name ;; Return (orElse r n)
  | ExpressionStatement h e =>
      match e with
      | Identifier name => r <- slot ids name ;; Return (orElse r n)
      | _ => e' <- substitute ids e ;; Return (ExpressionStatement h e')
      end
  | StringLiteral _ | BooleanLiteral _ | NumericLiteral _ => Return n
  | ArrayExpression l => l' <- all l ;; Return (ArrayExpression l')
  | ObjectProperty k v =>
      k' <- substitute ids k ;; v' <- substitute ids v ;; Return (ObjectProperty k' v')
  | ObjectExpression l => l' <- all l ;; Return (ObjectExpression l')
  | CallExpression c l =>
      c' <- substitute ids c ;; l' <- all l ;; Return (CallExpression c' l')
  | SequenceExpression l => l' <- all l ;; Return (SequenceExpression l')
  | AssignmentExpression a b =>
      a' <- substitute ids a ;; b' <- substitute ids b ;; Return (AssignmentExpression a' b')
  | UpdateExpression a => a' <- substitute ids a ;; Return (UpdateExpression a')
  | YieldExpression o => o' <- optional o ;; Return (YieldExpression o')
  | BlockStatement l => l' <- all l ;; Return (BlockStatement l')
  | LabeledStatement label line b =>
      b' <- substitute ids b ;; Return (LabeledStatement label line b')
  | VariableDeclaration l => l' <- all l ;; Return (VariableDeclaration l')
  | ReturnStatement o => o' <- optional o ;; Return (ReturnStatement o')
  | FunctionNode t id line b => b' <- substitute ids b ;; Return (FunctionNode t id line b')
  | ClassMethod k b =>
      k' <- substitute ids k ;; b' <- substitute ids b ;; Return (ClassMethod k' b')
  | ClassDeclaration id line b =>
      b' <- substitute ids b ;; Return (ClassDeclaration id line b')
  | ClassBody l => l' <- all l ;; Return (ClassBody l')
  | Program l => l' <- all l ;; Return (Program l')
  | Other t l => l' <- all l ;; Return (Other t l')
  end.

(** A compiled template: the parse tree [ast] awaiting its slots. *)
Definition compiled (ast : Node) : TemplateIds -> Result Node :=
  fun ids => substitute ids ast.

(** [template(input)] of the host, over the host's parser. *)
Definition template (parse : string -> Node) (input : string) : TemplateIds -> Result Node :=
  compiled (parse input).

(** [node.expression ? node.expression : node], index.js:94. *)
Definition unwrapExpression (node : Node) : Node :=
  match node with
  | ExpressionStatement _ e => e
  | _ => node
  end.

(** [expression], index.js:90-96, on a template [fn]. *)
Definition expressionOf (fn : TemplateIds -> Result Node) : TemplateIds -> Result Node :=
  fun ids => node <- fn ids ;; Return (unwrapExpression node).

Definition expression (parse : string -> Node) (input : string) : TemplateIds -> Result Node :=
  expressionOf (template parse input).

(** ** The built-in synthesizer *)

(** [addIdentifiers], index.js:140-147. *)
Definition addIdentifiers (nodes : list (string * Node)) : list (string * Node) :=
  spread (spread [] nodes)
         (map (fun kv => ((fst kv ++ "Key")%string, Identifier (fst kv))) nodes).

Definition newline : string := String (ascii_of_nat 10) EmptyString.

(** The text of the template literal of index.js:156-166, the log
    function name spliced in as it is. *)
Definition nrserLogText (logFunction : string) : string :=
  (newline ++ "      " ++ logFunction ++ "({" ++ newline
   ++ "        valuesKey: values," ++ newline
   ++ "        levelKey: level," ++ newline
   ++ "        filenameKey: filename," ++ newline
   ++ "        filepathKey: filepath," ++ newline
   ++ "        contentKey: content," ++ newline
   ++ "        lineKey: line," ++ newline
   ++ "        parentPathKey: parentPath," ++ newline
   ++ "      })" ++ newline ++ "    ")%string.

(** The tree a parser gives for that text when it reads what was
    spliced in as the expression [callee]: the call of [callee] on the
    object literal of the seven properties. *)
Definition nrserLogTree (callee : Node) : Node :=
  ExpressionStatement false
    (CallExpression callee
       [ObjectExpression
          [ObjectProperty (Identifier "valuesKey") (Identifier "values");
           ObjectProperty (Identifier "levelKey") (Identifier "level");
           ObjectProperty (Identifier "filenameKey") (Identifier "filename");
           ObjectProperty (Identifier "filepathKey") (Identifier "filepath");
           ObjectProperty (Identifier "contentKey") (Identifier "content");
           ObjectProperty (Identifier "lineKey") (Identifier "line");
           ObjectProperty (Identifier "parentPathKey") (Identifier "parentPath")]]).

(** [t.isSequenceExpression(content) ? content.expressions : [content]] *)
Definition contentEntries (content : Node) : list Node :=
  match content with
  | SequenceExpression expressions => expressions
  | _ => [content]
  end.

(** The slot table of index.js:167-183. *)
Definition nrserLogNodes (content : Node) (metadata : Metadata)
    (values : bool) (level : string) : list (string * Node) :=
  [ ("values", BooleanLiteral values);
    ("level", StringLiteral level);
    ("filename", StringLiteral (filename metadata));
    ("filepath", StringLiteral (filepath metadata));
    ("content", ArrayExpression (contentEntries content));
    ("line", NumericLiteral (line metadata));
    ("parentPath", ArrayExpression (map StringLiteral (parentPath metadata))) ].

(** [nrserLog], index.js:149-185, over the host's parser: the template
    text is compiled at each call and applied to the slot table. *)
Definition nrserLog (parse : string -> Node) (logFunction : string) (content : Node)
    (metadata : Metadata) (values : bool) (level : string) : Result Node :=
  expression parse (nrserLogText logFunction)
    (IdsObject (addIdentifiers (nrserLogNodes content metadata values level))).

Definition Synthesizer : Type := string -> Node -> Metadata -> Result Node.

(** [makeNrserLog], index.js:125-138; an absent [values] defaults to
    [true]. *)
Definition makeNrserLog (parse : string -> Node) (values : option bool) (level : string)
    : Synthesizer :=
  let values := match values with Some v => v | None => true end in
  fun logFunction content metadata => nrserLog parse logFunction content metadata values level.

(** ** The plugin instance and its options *)

(** What the closure of index.js:69 captures: the environment of the
    process, its working directory, [path.resolve] and the parser
    behind [template]. *)
Record Plugin : Type := {
  TRACE_CONTEXT : option string;
  TRACE_FILE : option string;
  TRACE_LEVEL : option string;
  NODE_ENV : option string;
  cwd : string;
  resolve : string -> string -> string;
  parse : string -> Node
}.

(** index.js:71-73 *)
Definition PRESERVE_CONTEXTS (P : Plugin) : list string := normalizeEnv (TRACE_CONTEXT P).
Definition PRESERVE_FILES (P : Plugin) : list string := normalizeEnv (TRACE_FILE P).
Definition PRESERVE_LEVELS (P : Plugin) : list string := normalizeEnv (TRACE_LEVEL P).

(** A value of the alias table: a template source or a function. *)
Inductive AliasValue : Type :=
| AliasString (source : string)
| AliasFunction (f : Synthesizer).

(** [opts.strip]: absent, a boolean, a string or a mapping. *)
Inductive StripOption : Type :=
| StripUndefined
| StripBoolean (b : bool)
| StripString (s : string)
| StripMapping (m : list (string * bool)).

Record PluginOptions : Type := {
  aliases : option (list (string * AliasValue));
  strip : StripOption;
  logFunction : option string;
  normalized : bool
}.

Definition levels : list string := ["error"; "warn"; "info"; "debug"; "trace"].

(** The table filled by index.js:106-111. *)
Definition defaultAliases (parse : string -> Node) : list (string * AliasValue) :=
  fold_left
    (fun table level =>
       let table := set table level (AliasFunction (makeNrserLog parse None level)) in
       let table :=
         set table (level ++ "Values")%string (AliasFunction (makeNrserLog parse None level)) in
       set table (level ++ "Refs")%string (AliasFunction (makeNrserLog parse (Some false) level)))
    levels [].

(** The function stored by index.js:116-117: it has one parameter,
    [message], and hands it to the compiled template as the slots. *)
Definition compiledAlias (expr : TemplateIds -> Result Node) : Synthesizer :=
  fun message _ _ => expr (IdsString message).

(** One round of the [forEach] of index.js:114-119 on [key]; the second
    component records the sources handed to [expression]. *)
Definition compileKey (P : Plugin)
    (state : list (string * AliasValue) * list string) (key : string)
    : list (string * AliasValue) * list string :=
  let (table, sources) := state in
  match get table key with
  | Some (AliasString source) =>
      if nonEmpty source
      then (set table key (AliasFunction (compiledAlias (expression (parse P) source))),
            sources ++ [source])
      else state
  | _ => state
  end.

(** [normalizeOpts], index.js:101-123: the options after the call and
    the template sources it compiled. *)
Definition normalizeOpts (P : Plugin) (opts : PluginOptions) : PluginOptions * list string :=
  if normalized opts then (opts, [])
  else
    match aliases opts with
    | None =>
        ({| aliases := Some (defaultAliases (parse P)); strip := strip opts;
            logFunction := logFunction opts; normalized := true |}, [])
    | Some table =>
        let (table', sources) := fold_left (compileKey P) (keys table) (table, []) in
        ({| aliases := Some table'; strip := strip opts;
            logFunction := logFunction opts; normalized := true |}, sources)
    end.

(** ** Reading the alias table

    [opts.aliases[name]] is an ordinary property read: an own entry, or
    else what the object inherits. *)
Inductive Property : Type :=
| Undefined
| Own (v : AliasValue)
| Inherited (name : string).

Definition property (table : list (string * AliasValue)) (name : string) : Property :=
  match get table name with
  | Some v => Own v
  | None => if inPrototype name then Inherited name else Undefined
  end.

Definition readAlias (opts : PluginOptions) (name : string) : Result Property :=
  match aliases opts with
  | Some table => Return (property table name)
  | None => Throw (TypeError "Cannot read property of undefined")
  end.

Definition truthy (p : Property) : bool :=
  match p with
  | Undefined => false
  | Own (AliasString source) => nonEmpty source
  | Own (AliasFunction _) => true
  | Inherited _ => true
  end.

(** [opts.aliases[name](logFunction, content, metadata)] wrapped by
    [t.expressionStatement]: a string is not callable, and what an
    inherited member returns is not a node, which the builder rejects.
    A synthesizer is taken to return an expression, as the built-in
    ones do. *)
Definition callAlias (p : Property) : Synthesizer :=
  fun logFunction content metadata =>
    match p with
    | Own (AliasFunction f) => f logFunction content metadata
    | Own (AliasString _) | Undefined => Throw (TypeError "opts.aliases[...] is not a function")
    | Inherited _ => Throw (TypeError "Property expression of ExpressionStatement expected a node")
    end.

(** ** The strip decision *)

Definition stripTruthy (s : StripOption) : bool :=
  match s with
  | StripUndefined => false
  | StripBoolean b => b
  | StripString str => nonEmpty str
  | StripMapping _ => true
  end.

(** [opts.strip === true] *)
Definition stripIsTrue (s : StripOption) : bool :=
  match s with StripBoolean true => true | _ => false end.

(** [_.isString(opts.strip) && opts.strip === process.env.NODE_ENV] *)
Definition stripIsEnv (P : Plugin) (s : StripOption) : bool :=
  match s, NODE_ENV P with
  | StripString str, Some env => String.eqb str env
  | _, _ => false
  end.

(** [opts.strip[process.env.NODE_ENV] === true]; an unset variable
    reads as the key ["undefined"], and neither a boolean nor a string
    has a property that is [true]. *)
Definition stripHasEnv (P : Plugin) (s : StripOption) : bool :=
  let key := match NODE_ENV P with Some env => env | None => "undefined" end in
  match s with
  | StripMapping m => match get m key with Some true => true | _ => false end
  | _ => false
  end.

(** [list.length && list.some(callback)] *)
Definition lengthAndSome {A : Type} (l : list A) (callback : A -> Result bool) : Result bool :=
  match l with
  | [] => Return false
  | _ :: _ => some callback l
  end.

(** [hasStripOverride], index.js:297-310. *)
Definition hasStripOverride (P : Plugin) (name : string) (metadata : Metadata) : Result bool :=
  byContext <- lengthAndSome (PRESERVE_CONTEXTS P)
    (fun entry =>
       match context metadata with
       | Some c => Return (found (indexOf (toLowerCase c) entry))
       | None => Throw (TypeError "Cannot read property 'toLowerCase' of undefined")
       end) ;;
  if byContext then Return true
  else
    byFile <- lengthAndSome (PRESERVE_FILES P)
      (fun entry => Return (found (indexOf (toLowerCase (filename metadata)) entry))) ;;
    if byFile then Return true
    else
      byLevel <- lengthAndSome (PRESERVE_LEVELS P)
        (fun level => Return (String.eqb level (toLowerCase name))) ;;
      if byLevel then Return true else Return false.

(** [shouldStrip], index.js:272-295. *)
Definition shouldStrip (P : Plugin) (name : string) (metadata : Metadata)
    (opts : PluginOptions) : Result bool :=
  if negb (stripTruthy (strip opts)) then Return false
  else if stripIsTrue (strip opts) || stripIsEnv P (strip opts) || stripHasEnv P (strip opts)
  then override <- hasStripOverride P name metadata ;; Return (negb override)
  else Return false.

(** ** Node paths

    A path is Babel's [NodePath]: the node, where it sits in its
    parent ([key], with [listKey] and the index for a member of a list)
    and the parent's path.  Two paths of one tree reach the same node
    exactly when their chains of keys agree, which is how
    [child.node === path.node] is decided. *)

Inductive Key : Type :=
| Field (name : string)
| Index (listKey : string) (index : nat).

Inductive NodePath : Type :=
| mkNodePath (node : Node) (key : Key) (parent : option NodePath) (hubFilename : string).

Definition node (p : NodePath) : Node :=
  match p with mkNodePath n _ _ _ => n end.
Definition key (p : NodePath) : Key :=
  match p with mkNodePath _ k _ _ => k end.
Definition parent (p : NodePath) : option NodePath :=
  match p with mkNodePath _ _ q _ => q end.
(** [path.hub.file.opts.filename] *)
Definition hubFilename (p : NodePath) : string :=
  match p with mkNodePath _ _ _ f => f end.

(** Modelled from the spec: [path.getAncestry()] of the host, the path
    itself, then its ancestors outwards. *)
Fixpoint getAncestry (p : NodePath) : list NodePath :=
  p :: match p with
       | mkNodePath _ _ (Some q) _ => getAncestry q
       | mkNodePath _ _ None _ => []
       end.

Definition keyEqb (a b : Key) : bool :=
  match a, b with
  | Field x, Field y => String.eqb x y
  | Index lx ix, Index ly iy => String.eqb lx ly && Nat.eqb ix iy
  | _, _ => false
  end.

Fixpoint keysEqb (a b : list Key) : bool :=
  match a, b with
  | [], [] => true
  | x :: a', y :: b' => keyEqb x y && keysEqb a' b'
  | _, _ => false
  end.

Definition sameNode (a b : NodePath) : bool :=
  keysEqb (map key (getAncestry a)) (map key (getAncestry b)).

Definition isClassMethod (p : NodePath) : bool :=
  match node p with ClassMethod _ _ => true | _ => false end.
Definition isClassDeclaration (p : NodePath) : bool :=
  match node p with ClassDeclaration _ _ _ => true | _ => false end.
Definition isFunction (p : NodePath) : bool :=
  match node p with FunctionNode _ _ _ _ | ClassMethod _ _ => true | _ => false end.
Definition isProgram (p : NodePath) : bool :=
  match node p with Program _ => true | _ => false end.
Definition isClassBody (p : NodePath) : bool :=
  match node p with ClassBody _ => true | _ => false end.
Definition isBlockStatement (p : NodePath) : bool :=
  match node p with BlockStatement _ => true | _ => false end.

(** Modelled from the spec: [path.get('body')] of the host where the
    node keeps one node under [body]. *)
Definition getBody (p : NodePath) : option NodePath :=
  match node p with
  | FunctionNode _ _ _ b | ClassMethod _ b | ClassDeclaration _ _ b
  | LabeledStatement _ _ b =>
      Some (mkNodePath b (Field "body") (Some p) (hubFilename p))
  | _ => None
  end.

Fixpoint indexed (p : NodePath) (i : nat) (l : list Node) : list NodePath :=
  match l with
  | [] => []
  | n :: l' => mkNodePath n (Index "body" i) (Some p) (hubFilename p) :: indexed p (S i) l'
  end.

(** Modelled from the spec: [path.get('body')] of the host where the
    node keeps a list under [body]. *)
Definition getBodyList (p : NodePath) : option (list NodePath) :=
  match node p with
  | BlockStatement l | ClassBody l | Program l => Some (indexed p 0 l)
  | _ => None
  end.

(** [parent.get('body').get('body')] as the [for ... of] of
    index.js:238 needs it: anything but a list cannot be iterated. *)
Definition bodyOfBody (p : NodePath) : Result (list NodePath) :=
  match getBody p with
  | Some b =>
      match getBodyList b with
      | Some children => Return children
      | None => Throw (TypeError "parent.get(...).get(...) is not iterable")
      end
  | None => Throw (TypeError "parent.get(...).get(...) is not iterable")
  end.

(** ** The metadata collector, index.js:191-266 *)

Record Walk : Type := {
  parts : list string;
  found_parent : option NodePath;
  depth : nat
}.

Definition markParent (w : Walk) (item : NodePath) : option NodePath :=
  match found_parent w with
  | Some q => Some q
  | None => Some item
  end.

(** The callback of the [reduce] of index.js:205-233. *)
Definition ancestorStep (w : Walk) (item : NodePath) : Walk :=
  match node item with
  | ClassMethod k _ =>
      {| parts := match k with
                  | Identifier name => name
                  | _ => "[computed method]"
                  end :: parts w;
         found_parent := markParent w item; depth := depth w |}
  | ClassDeclaration id l _ =>
      {| parts := match id with
                  | Some name => name
                  | None => ("[anonymous class@" ++ decimal l ++ "]")%string
                  end :: parts w;
         found_parent := markParent w item; depth := depth w |}
  | FunctionNode _ id l _ =>
      {| parts := match id with
                  | Some (String c name) => String c name
                  | _ => ("[anonymous@" ++ decimal l ++ "]")%string
                  end :: parts w;
         found_parent := markParent w item; depth := depth w |}
  | Program _ =>
      {| parts := parts w; found_parent := markParent w item; depth := depth w |}
  | ClassBody _ | BlockStatement _ => w
  | _ =>
      match found_parent w with
      | None => {| parts := parts w; found_parent := None; depth := S (depth w) |}
      | Some _ => w
      end
  end.

(** The loop of index.js:238-254 over the statements of the enclosing
    scope: the pair is [(hasStartMessage, isStartMessage)]. *)
Fixpoint startMessage (path : NodePath) (opts : PluginOptions)
    (children : list NodePath) : Result (bool * bool) :=
  match children with
  | [] => Return (false, false)
  | child :: rest =>
      match node child with
      | ExpressionStatement true _ => Return (true, false)
      | LabeledStatement label _ _ =>
          p <- readAlias opts label ;;
          if truthy p then Return (true, sameNode child path)
          else startMessage path opts rest
      | _ => Return (false, false)
      end
  end.

Definition collectMetadata (P : Plugin) (path : NodePath) (opts : PluginOptions)
    : Result Metadata :=
  let filename := hubFilename path in
  let filepath := resolve P (cwd P) (hubFilename path) in
  let line := match node path with LabeledStatement _ l _ => l | _ => 0 end in
  let w := fold_left ancestorStep (tl (getAncestry path))
             {| parts := []; found_parent := None; depth := 0 |} in
  flags <- match found_parent w with
           | Some q =>
               if isProgram q then Return (false, false)
               else children <- bodyOfBody q ;; startMessage path opts children
           | None => Return (false, false)
           end ;;
  Return {| indent := depth w;
            parentPath := parts w;
            hasStartMessage := fst flags;
            isStartMessage := snd flags;
            filename := filename;
            filepath := filepath;
            line := line |}.

(** ** The rewriter, index.js:318-366 *)

(** The traversal of index.js:334-358 below the label: the two
    visitors of the source under the host's depth-first traversal, which
    enters a node before its children and, when a visitor replaces the
    node, goes on with the replacement.  A node with a side effect ends
    it with the error built at the label.  An expression statement that
    is not yet handled is replaced by the handled statement around the
    synthesized expression, and the traversal goes on inside the
    replacement; an expression holds statements only beneath a
    function, at which the traversal stops, so what is left to do
    inside the replacement is the purity check. *)
Section Traverse.
Variable error : Error.
Variable synthesize : Node -> Result Node.

Fixpoint traverse (n : Node) {struct n} : Result Node :=
  let all := mapM traverse in
  match n with
  | VariableDeclaration _ | FunctionNode _ _ _ _ | ClassMethod _ _
  | AssignmentExpression _ _ | UpdateExpression _ | YieldExpression _
  | ReturnStatement _ => Throw error
  | ExpressionStatement true e =>
      e' <- traverse e ;; Return (ExpressionStatement true e')
  | ExpressionStatement false e =>
      replacement <- synthesize e ;;
      if containsSideEffect replacement then Throw error
      else Return (ExpressionStatement true replacement)
  | Identifier _ | StringLiteral _ | BooleanLiteral _ | NumericLiteral _ => Return n
  | ArrayExpression l => l' <- all l ;; Return (ArrayExpression l')
  | ObjectProperty k v =>
      k' <- traverse k ;; v' <- traverse v ;; Return (ObjectProperty k' v')
  | ObjectExpression l => l' <- all l ;; Return (ObjectExpression l')
  | CallExpression c l =>
      c' <- traverse c ;; l' <- all l ;; Return (CallExpression c' l')
  | SequenceExpression l => l' <- all l ;; Return (SequenceExpression l')
  | BlockStatement l => l' <- all l ;; Return (BlockStatement l')
  | LabeledStatement label l b => b' <- traverse b ;; Return (LabeledStatement label l b')
  | ClassDeclaration id l b => b' <- traverse b ;; Return (ClassDeclaration id l b')
  | ClassBody l => l' <- all l ;; Return (ClassBody l')
  | Program l => l' <- all l ;; Return (Program l')
  | Other t l => l' <- all l ;; Return (Other t l')
  end.
End Traverse.

(** What the visitor asks of the host for the labeled statement. *)
Inductive Action : Type :=
| Untouched
| Remove
| ReplaceWith (replacement : Node)
| ReplaceWithMultiple (replacements : list Node).

Definition sideEffectError (l : nat) : Error :=
  CodeFrameError l "Logging statements cannot have side effects.".

(** [opts.logFunction || 'METALOG'] *)
Definition logFunctionOf (opts : PluginOptions) : string :=
  match logFunction opts with
  | Some (String c name) => String c name
  | _ => "METALOG"
  end.

(** The [LabeledStatement] visitor of index.js:318-366: the options as
    [normalizeOpts] leaves them, and the action taken on the path. *)
Definition LabeledStatement_visitor (P : Plugin) (path : NodePath) (opts : PluginOptions)
    : Result (PluginOptions * Action) :=
  match node path with
  | LabeledStatement label l body =>
      let opts := fst (normalizeOpts P opts) in
      alias <- readAlias opts label ;;
      if negb (truthy alias) then Return (opts, Untouched)
      else
        metadata <- collectMetadata P path opts ;;
        stripped <- shouldStrip P label metadata opts ;;
        if stripped then Return (opts, Remove)
        else
          let logFunction := logFunctionOf opts in
          body' <- traverse (sideEffectError l)
                     (fun content => callAlias alias logFunction content metadata) body ;;
          match body' with
          | BlockStatement statements => Return (opts, ReplaceWithMultiple statements)
          | _ => Return (opts, ReplaceWith body')
          end
  | _ => Throw (TypeError "Cannot read property 'name' of undefined")
  end.

(** Modelled from the spec: the host's [path.remove],
    [path.replaceWith] and [path.replaceWithMultiple], by what they
    leave of the enclosing statement list when the path is its member
    [i]. *)
Definition splice (container : list Node) (i : nat) (a : Action) : list Node :=
  match a with
  | Untouched => container
  | Remove => firstn i container ++ skipn (S i) container
  | ReplaceWith n => firstn i container ++ n :: skipn (S i) container
  | ReplaceWithMultiple ns => firstn i container ++ ns ++ skipn (S i) container
  end.

(** * Properties *)

(** ** Induction over syntax trees *)

Section NodeInduction.
Variable Q : Node -> Prop.
Hypothesis HIdentifier : forall name, Q (Identifier name).
Hypothesis HString : forall value, Q (StringLiteral value).
Hypothesis HBoolean : forall value, Q (BooleanLiteral value).
Hypothesis HNumeric : forall value, Q (NumericLiteral value).
Hypothesis HArray : forall l, Forall Q l -> Q (ArrayExpression l).
Hypothesis HProperty : forall k v, Q k -> Q v -> Q (ObjectProperty k v).
Hypothesis HObject : forall l, Forall Q l -> Q (ObjectExpression l).
Hypothesis HCall : forall c l, Q c -> Forall Q l -> Q (CallExpression c l).
Hypothesis HSequence : forall l, Forall Q l -> Q (SequenceExpression l).
Hypothesis HAssignment : forall a b, Q a -> Q b -> Q (AssignmentExpression a b).
Hypothesis HUpdate : forall a, Q a -> Q (UpdateExpression a).
Hypothesis HYield : forall o, (forall a, o = Some a -> Q a) -> Q (YieldExpression o).
Hypothesis HStatement : forall h e, Q e -> Q (ExpressionStatement h e).
Hypothesis HBlock : forall l, Forall Q l -> Q (BlockStatement l).
Hypothesis HLabeled : forall label l b, Q b -> Q (LabeledStatement label l b).
Hypothesis HVariable : forall l, Forall Q l -> Q (VariableDeclaration l).
Hypothesis HReturn : forall o, (forall a, o = Some a -> Q a) -> Q (ReturnStatement o).
Hypothesis HFunction : forall t id l b, Q b -> Q (FunctionNode t id l b).
Hypothesis HMethod : forall k b, Q k -> Q b -> Q (ClassMethod k b).
Hypothesis HClass : forall id l b, Q b -> Q (ClassDeclaration id l b).
Hypothesis HClassBody : forall l, Forall Q l -> Q (ClassBody l).
Hypothesis HProgram : forall l, Forall Q l -> Q (Program l).
Hypothesis HOther : forall t l, Forall Q l -> Q (Other t l).

Fixpoint Node_induction (n : Node) : Q n :=
  let all := fix all (l : list Node) : Forall Q l :=
    match l with
    | [] => Forall_nil Q
    | x :: l' => Forall_cons x (Node_induction x) (all l')
    end in
  let optional (o : option Node) : forall a, o = Some a -> Q a :=
    match o return forall a, o = Some a -> Q a with
    | Some x => fun a E =>
        match E in _ = s return match s with Some y => Q y | None => True end with
        | eq_refl => Node_induction x
        end
    | None => fun a E =>
        match E in _ = s return match s with Some y => Q y | None => True end with
        | eq_refl => I
        end
    end in
  match n with
  | Identifier name => HIdentifier name
  | StringLiteral v => HString v
  | BooleanLiteral v => HBoolean v
  | NumericLiteral v => HNumeric v
  | ArrayExpression l => HArray (all l)
  | ObjectProperty k v => HProperty (Node_induction k) (Node_induction v)
  | ObjectExpression l => HObject (all l)
  | CallExpression c l => HCall (Node_induction c) (all l)
  | SequenceExpression l => HSequence (all l)
  | AssignmentExpression a b => HAssignment (Node_induction a) (Node_induction b)
  | UpdateExpression a => HUpdate (Node_induction a)
  | YieldExpression o => HYield (optional o)
  | ExpressionStatement h e => HStatement h (Node_induction e)
  | BlockStatement l => HBlock (all l)
  | LabeledStatement label l b => HLabeled label l (Node_induction b)
  | VariableDeclaration l => HVariable (all l)
  | ReturnStatement o => HReturn (optional o)
  | FunctionNode t id l b => HFunction t id l (Node_induction b)
  | ClassMethod k b => HMethod (Node_induction k) (Node_induction b)
  | ClassDeclaration id l b => HClass id l (Node_induction b)
  | ClassBody l => HClassBody (all l)
  | Program l => HProgram (all l)
  | Other t l => HOther t (all l)
  end.
End NodeInduction.

(** ** The call the specification describes

    [logFunction({values, level, filename, filepath, content, line,
    parentPath})] with the literals of the metadata. *)
Definition logCall (logFunction : string) (values : bool) (level : string)
    (content : list Node) (metadata : Metadata) : Node :=
  CallExpression (Identifier logFunction)
    [ObjectExpression
       [ObjectProperty (Identifier "values") (BooleanLiteral values);
        ObjectProperty (Identifier "level") (StringLiteral level);
        ObjectProperty (Identifier "filename") (StringLiteral (filename metadata));
        ObjectProperty (Identifier "filepath") (StringLiteral (filepath metadata));
        ObjectProperty (Identifier "content") (ArrayExpression content);
        ObjectProperty (Identifier "line") (NumericLiteral (line metadata));
        ObjectProperty (Identifier "parentPath")
          (ArrayExpression (map StringLiteral (parentPath metadata)))]].

(** The same call on any callee. *)
Definition logCallTo (callee : Node) (values : bool) (level : string)
    (content : list Node) (metadata : Metadata) : Node :=
  CallExpression callee
    [ObjectExpression
       [ObjectProperty (Identifier "values") (BooleanLiteral values);
        ObjectProperty (Identifier "level") (StringLiteral level);
        ObjectProperty (Identifier "filename") (StringLiteral (filename metadata));
        ObjectProperty (Identifier "filepath") (StringLiteral (filepath metadata));
        ObjectProperty (Identifier "content") (ArrayExpression content);
        ObjectProperty (Identifier "line") (NumericLiteral (line metadata));
        ObjectProperty (Identifier "parentPath")
          (ArrayExpression (map StringLiteral (parentPath metadata)))]].

(** Some identifier of the tree [n] bears one of the [names]. *)
Fixpoint mentions (names : list string) (n : Node) : bool :=
  let optional (o : option Node) : bool :=
    match o with Some a => mentions names a | None => false end in
  match n with
  | Identifier name => existsb (fun k => String.eqb k name) names
  | StringLiteral _ | BooleanLiteral _ | NumericLiteral _ => false
  | ArrayExpression l | ObjectExpression l | SequenceExpression l
  | BlockStatement l | VariableDeclaration l | ClassBody l | Program l | Other _ l =>
      existsb (mentions names) l
  | ObjectProperty a b | AssignmentExpression a b | ClassMethod a b =>
      mentions names a || mentions names b
  | CallExpression c l => mentions names c || existsb (mentions names) l
  | UpdateExpression a | ExpressionStatement _ a | LabeledStatement _ _ a
  | FunctionNode _ _ _ a | ClassDeclaration _ _ a => mentions names a
  | YieldExpression o | ReturnStatement o => optional o
  end.



(** A string of ASCII characters. *)
Fixpoint isAscii (s : string) : bool :=
  match s with
  | EmptyString => true
  | String c s' => Nat.ltb (nat_of_ascii c) 128 && isAscii s'
  end.

(** The names the template of [nrserLog] treats as slots. *)
Definition slotNames : list string :=
  [ "values"; "level"; "filename"; "filepath"; "content"; "line"; "parentPath";
    "valuesKey"; "levelKey"; "filenameKey"; "filepathKey"; "contentKey"; "lineKey";
    "parentPathKey" ].

(** How deep labels and blocks nest at the top of a statement. *)
Fixpoint nesting (n : Node) : nat :=
  match n with
  | LabeledStatement _ _ b => S (nesting b)
  | BlockStatement l => S (list_max (map nesting l))
  | _ => 0
  end.

(** ** Outcomes of the traversal *)


(** What the traversal returns for [n] nests as [n] does. *)
Definition KeepsNesting (error : Error) (synthesize : Node -> Result Node) (n : Node) : Prop :=
  forall n', traverse error synthesize n = Return n' -> nesting n' = nesting n.

(** ** Predicates of the further properties *)

(** A string that does not begin with white space. *)
Definition startsClean (s : string) : Prop :=
  match s with
  | EmptyString => True
  | String c _ => isSpace c = false
  end.

(** What [normalizeOpts] makes of one entry of a user's alias table,
    and the sources it compiles for a table. *)
Definition compileEntry (P : Plugin) (entry : string * AliasValue) : string * AliasValue :=
  match snd entry with
  | AliasString source =>
      if nonEmpty source
      then (fst entry, AliasFunction (compiledAlias (expression (parse P) source)))
      else entry
  | AliasFunction _ => entry
  end.

Definition sourcesOf (table : list (string * AliasValue)) : list string :=
  flat_map (fun entry =>
              match snd entry with
              | AliasString source => if nonEmpty source then [source] else []
              | AliasFunction _ => []
              end) table.

(** The name an ancestor adds to [parentPath], if it adds one. *)
Definition scopeName (item : NodePath) : list string :=
  match node item with
  | ClassMethod (Identifier name) _ => [name]
  | ClassMethod _ _ => ["[computed method]"]
  | ClassDeclaration (Some name) _ _ => [name]
  | ClassDeclaration None l _ => [("[anonymous class@" ++ decimal l ++ "]")%string]
  | FunctionNode _ (Some (String c name)) _ _ => [String c name]
  | FunctionNode _ _ l _ => [("[anonymous@" ++ decimal l ++ "]")%string]
  | _ => []
  end.

(** An ancestor that bounds the scope of a label: a method, a class, a
    function or the program. *)
Definition isScope (item : NodePath) : bool :=
  isClassMethod item || isClassDeclaration item || isFunction item || isProgram item.

(** The ancestors below the nearest scope that are neither blocks nor
    class bodies, counted. *)
Fixpoint indentOf (ancestors : list NodePath) : nat :=
  match ancestors with
  | [] => 0
  | item :: rest =>
      if isScope item then 0
      else (if isClassBody item || isBlockStatement item then 0 else 1) + indentOf rest
  end.

(** A labeled statement whose label the guard of the visitor rejects. *)
Definition isPlainLabel (table : list (string * AliasValue)) (s : Node) : Prop :=
  exists label l b, s = LabeledStatement label l b /\ truthy (property table label) = false.

(** A statement that ends the scan for a start message without one. *)
Definition isOrdinary (s : Node) : Prop :=
  match s with
  | LabeledStatement _ _ _ | ExpressionStatement true _ => False
  | _ => True
  end.

(** Every expression statement among the statements of [n] carries the
    handled mark. *)
Fixpoint marked (n : Node) : bool :=
  match n with
  | ExpressionStatement h _ => h
  | ArrayExpression l | ObjectExpression l | SequenceExpression l
  | BlockStatement l | ClassBody l | Program l | Other _ l => forallb marked l
  | ObjectProperty k v => marked k && marked v
  | CallExpression c l => marked c && forallb marked l
  | LabeledStatement _ _ b | ClassDeclaration _ _ b => marked b
  | _ => true
  end.

(** Every expression statement of the tree [n] carries the handled
    mark, down to those inside handled statements. *)
Fixpoint allHandled (n : Node) : bool :=
  match n with
  | ExpressionStatement h e => h && allHandled e
  | ArrayExpression l | ObjectExpression l | SequenceExpression l
  | BlockStatement l | ClassBody l | Program l | Other _ l => forallb allHandled l
  | ObjectProperty k v => allHandled k && allHandled v
  | CallExpression c l => allHandled c && forallb allHandled l
  | LabeledStatement _ _ b | ClassDeclaration _ _ b => allHandled b
  | _ => true
  end.

(** ** Sample inputs *)

(** The parser of the samples knows the template [LOG(content)] and
    the template of [nrserLog] for the log functions [METALOG] and
    [level.log]. *)
Definition sampleParse (source : string) : Node :=
  if String.eqb source "LOG(content)"
  then ExpressionStatement false (CallExpression (Identifier "LOG") [Identifier "content"])
  else if String.eqb source (nrserLogText "METALOG")
  then nrserLogTree (Identifier "METALOG")
  else if String.eqb source (nrserLogText "level.log")
  then nrserLogTree (Other "MemberExpression" [Identifier "level"; Identifier "log"])
  else Identifier source.

Definition sampleResolve (from to : string) : string := (from ++ "/" ++ to)%string.

(** A process with the given [NODE_ENV] and [TRACE_*] variables. *)
Definition processWith (env context file level : option string) : Plugin :=
  {| TRACE_CONTEXT := context; TRACE_FILE := file; TRACE_LEVEL := level;
     NODE_ENV := env; cwd := "/work"; resolve := sampleResolve; parse := sampleParse |}.

Definition development : Plugin := processWith None None None None.
Definition production : Plugin := processWith (Some "production") None None None.
Definition productionKeepWarn : Plugin :=
  processWith (Some "production") None None (Some "debug, WARN").
Definition productionKeepLogin : Plugin :=
  processWith (Some "production") (Some ":login") None None.
Definition productionKeepFile : Plugin :=
  processWith (Some "production") None (Some "a.js") None.

Definition optionsWith (table : option (list (string * AliasValue))) (s : StripOption)
    : PluginOptions :=
  {| aliases := table; strip := s; logFunction := None; normalized := false |}.

Definition sampleMetadata : Metadata :=
  {| indent := 0; parentPath := ["doSomething"]; filename := "a.js";
     filepath := "/work/a.js"; hasStartMessage := true; isStartMessage := true;
     line := 7 |}.

(** The program that holds the function [fn] alone, in [file]; the
    path of the function, and of statement [i] of its body. *)
Definition functionPath (file : string) (fn : Node) : NodePath :=
  mkNodePath fn (Index "body" 0)
    (Some (mkNodePath (Program [fn]) (Field "program") None file)) file.

(** The path of statement [i] of the body of the function at [fn]. *)
Definition bodyStatement (fn : NodePath) (i : nat) : NodePath :=
  match bodyOfBody fn with
  | Return children => nth i children fn
  | Throw _ => fn
  end.

Definition statementPath (file : string) (fn : Node) (i : nat) : NodePath :=
  bodyStatement (functionPath file fn) i.

(** The path of statement [i] of the program [statements]. *)
Definition topLevelPath (file : string) (statements : list Node) (i : nat) : NodePath :=
  let program := mkNodePath (Program statements) (Field "program") None file in
  nth i (indexed program 0 statements) program.

(** [function doSomething() { debug: x; }], the label on line 7 *)
Definition doSomething (logged : Node) : Node :=
  FunctionNode FunctionDeclaration (Some "doSomething") 6
    (BlockStatement [LabeledStatement "debug" 7 (ExpressionStatement false logged)]).

(** [function f() { debug: a; debug: b; }] *)
Definition twoLabels : Node :=
  FunctionNode FunctionDeclaration (Some "f") 1
    (BlockStatement
       [LabeledStatement "debug" 2 (ExpressionStatement false (Identifier "a"));
        LabeledStatement "debug" 3 (ExpressionStatement false (Identifier "b"))]).

(** [twoLabels] once the visitor has rewritten its first statement *)
Definition twoLabelsAfter : Node :=
  FunctionNode FunctionDeclaration (Some "f") 1
    (BlockStatement
       [ExpressionStatement true
          (logCall "METALOG" true "debug" [Identifier "a"]
             {| indent := 0; parentPath := ["f"]; filename := "a.js";
                filepath := "/work/a.js"; hasStartMessage := true;
                isStartMessage := true; line := 2 |});
        LabeledStatement "debug" 3 (ExpressionStatement false (Identifier "b"))]).

(** [function g() { info: { a; b; } }] *)
Definition blockLabel : Node :=
  FunctionNode FunctionDeclaration (Some "g") 1
    (BlockStatement
       [LabeledStatement "info" 2
          (BlockStatement [ExpressionStatement false (Identifier "a");
                           ExpressionStatement false (Identifier "b")])]).

Definition blockMetadata : Metadata :=
  {| indent := 0; parentPath := ["g"]; filename := "a.js"; filepath := "/work/a.js";
     hasStartMessage := true; isStartMessage := true; line := 2 |}.

(** [toString: foo();] at the top of a program *)
Definition toStringLabel : Node :=
  LabeledStatement "toString" 1
    (ExpressionStatement false (CallExpression (Identifier "foo") [])).

(** [class Dude { doSomethingElse() { if (c) debug: "hi"; } }], and
    the path of its label. *)
Definition dude : Node :=
  ClassDeclaration (Some "Dude") 1
    (ClassBody
       [ClassMethod (Identifier "doSomethingElse")
          (BlockStatement
             [Other "IfStatement"
                [Identifier "c";
                 LabeledStatement "debug" 4 (ExpressionStatement false (StringLiteral "hi"))]])]).

Definition dudeLabel : NodePath :=
  let program := mkNodePath (Program [dude]) (Field "program") None "src/index.js" in
  let class := mkNodePath dude (Index "body" 0) (Some program) "src/index.js" in
  let statement := bodyStatement (bodyStatement class 0) 0 in
  mkNodePath (LabeledStatement "debug" 4 (ExpressionStatement false (StringLiteral "hi")))
    (Field "consequent") (Some statement) "src/index.js".

(** [aliases: {debug: "LOG(content)", off: "", info: f}] *)
Definition mixedOptions : PluginOptions :=
  optionsWith (Some [("debug", AliasString "LOG(content)"); ("off", AliasString "");
                     ("info", AliasFunction (makeNrserLog sampleParse None "info"))]) StripUndefined.

(** [function h() { outer: a; warn: b; info: c; }] *)
Definition labelsAfterPlain : Node :=
  FunctionNode FunctionDeclaration (Some "h") 1
    (BlockStatement
       [LabeledStatement "outer" 2 (ExpressionStatement false (Identifier "a"));
        LabeledStatement "warn" 3 (ExpressionStatement false (Identifier "b"));
        LabeledStatement "info" 4 (ExpressionStatement false (Identifier "c"))]).

(** [function h() { work(); debug: x; }] *)
Definition labelAfterCode : Node :=
  FunctionNode FunctionDeclaration (Some "h") 1
    (BlockStatement
       [ExpressionStatement false (CallExpression (Identifier "work") []);
        LabeledStatement "debug" 3 (ExpressionStatement false (Identifier "x"))]).

(** [x = 1] *)
Definition assignment : Node := AssignmentExpression (Identifier "x") (NumericLiteral 1).

(** [aliases: {debug: f}] for a synthesizer [f] of the user's *)
Definition customOptions (f : Synthesizer) : PluginOptions :=
  optionsWith (Some [("debug", AliasFunction f)]) StripUndefined.


(** A synthesizer that returns a fixed call, [mark()]. *)
Definition markerOptions : PluginOptions :=
  customOptions (fun _ _ _ => Return (CallExpression (Identifier "mark") [])).

(** [aliases: {debug: "LOG(content)"}] *)
Definition templateOptions : PluginOptions :=
  optionsWith (Some [("debug", AliasString "LOG(content)")]) StripUndefined.

(** ** The model on small inputs *)

Example normalizeEnv_levels :
  normalizeEnv (Some " WARN , trace,,debug ") = ["warn"; "trace"; "debug"].
Proof. reflexivity. Qed.

Example normalizeEnv_unset : normalizeEnv None = [] /\ normalizeEnv (Some "") = [].
Proof. split; reflexivity. Qed.

Example collectMetadata_in_method :
  collectMetadata development dudeLabel
    (fst (normalizeOpts development (optionsWith None StripUndefined)))
  = Return {| indent := 1; parentPath := ["Dude"; "doSomethingElse"];
              filename := "src/index.js"; filepath := "/work/src/index.js";
              hasStartMessage := false; isStartMessage := false; line := 4 |}.
Proof. reflexivity. Qed.

(** What is spliced in for the log function is parsed with the
    template, so an identifier in it that bears a slot's name is
    replaced along with the slot. *)
Example nrserLog_callee_with_slot_name :
  nrserLog sampleParse "level.log" (Identifier "x") sampleMetadata true "debug"
  = Return (logCallTo (Other "MemberExpression" [StringLiteral "debug"; Identifier "log"])
              true "debug" [Identifier "x"] sampleMetadata).
Proof. reflexivity. Qed.

(** ** The strip decision *)

Lemma shouldStrip_falsy P name metadata opts :
  stripTruthy (strip opts) = false ->
  shouldStrip P name metadata opts = Return false.
Proof.
  intros H. unfold shouldStrip. rewrite H. reflexivity.
Qed.

Lemma shouldStrip_match P name metadata opts :
  stripTruthy (strip opts) = true ->
  stripIsTrue (strip opts) || stripIsEnv P (strip opts) || stripHasEnv P (strip opts) = true ->
  shouldStrip P name metadata opts =
    (override <- hasStripOverride P name metadata ;; Return (negb override)).
Proof.
  intros Ht Hm. unfold shouldStrip. rewrite Ht, Hm. reflexivity.
Qed.

Lemma some_pure {A : Type} (f : A -> bool) (l : list A) :
  some (fun x => Return (f x)) l = Return (existsb f l).
Proof.
  induction l as [|x l IH]; simpl; [reflexivity|].
  destruct (f x); simpl; [reflexivity|exact IH].
Qed.

Lemma lengthAndSome_pure {A : Type} (f : A -> bool) (l : list A) :
  lengthAndSome l (fun x => Return (f x)) = Return (existsb f l).
Proof.
  destruct l as [|x l]; [reflexivity|]. unfold lengthAndSome. apply some_pure.
Qed.

(** Without [TRACE_CONTEXT] entries the override check is the
    disjunction of the file test and the level test. *)
Lemma hasStripOverride_no_context P name metadata :
  PRESERVE_CONTEXTS P = [] ->
  hasStripOverride P name metadata =
    Return (existsb (fun entry => found (indexOf (toLowerCase (filename metadata)) entry))
              (PRESERVE_FILES P)
            || existsb (fun level => String.eqb level (toLowerCase name)) (PRESERVE_LEVELS P)).
Proof.
  intros Hc. unfold hasStripOverride. rewrite Hc. simpl.
  rewrite lengthAndSome_pure. simpl.
  destruct (existsb _ (PRESERVE_FILES P)); simpl; [reflexivity|].
  rewrite lengthAndSome_pure. simpl.
  destruct (existsb _ (PRESERVE_LEVELS P)); reflexivity.
Qed.

(** With a [TRACE_CONTEXT] entry the override check reads
    [metadata.context.toLowerCase] on its first entry and fails. *)
Lemma hasStripOverride_context_throws P name metadata :
  PRESERVE_CONTEXTS P <> [] ->
  hasStripOverride P name metadata =
    Throw (TypeError "Cannot read property 'toLowerCase' of undefined").
Proof.
  intros Hc. unfold hasStripOverride.
  destruct (PRESERVE_CONTEXTS P) as [|entry rest]; [congruence|]. reflexivity.
Qed.

(** C2, amended. [shouldStrip] follows the layered policy, the file
    override being part of it: a falsy [strip] never strips, whatever
    the [TRACE_*] variables hold, and neither does a [strip] that
    matches nothing; under a truthy [strip] that is [true], or the name
    of the current environment, or a mapping with [true] under that
    name, and with no [TRACE_CONTEXT] entry, the statement is stripped
    exactly when no [TRACE_FILE] entry occurs in the lower-cased file
    name and the lower-cased label is no [TRACE_LEVEL] entry.  So with
    [strip: {production: true}] in the production environment and no
    [TRACE_CONTEXT] entry, a [warn] label is kept exactly when
    [TRACE_LEVEL] lists [warn] or a [TRACE_FILE] entry occurs in the
    file name, and stripped exactly when neither holds. *)
Theorem C2_shouldStrip_layered_policy :
  forall P name metadata opts,
    (stripTruthy (strip opts) = false ->
     shouldStrip P name metadata opts = Return false)
    /\ (stripIsTrue (strip opts) || stripIsEnv P (strip opts) || stripHasEnv P (strip opts)
        = false ->
        shouldStrip P name metadata opts = Return false)
    /\ (stripTruthy (strip opts) = true ->
        (strip opts = StripBoolean true
         \/ (exists env, strip opts = StripString env /\ NODE_ENV P = Some env)
         \/ (exists m env, strip opts = StripMapping m /\ NODE_ENV P = Some env
                           /\ get m env = Some true)) ->
        PRESERVE_CONTEXTS P = [] ->
        shouldStrip P name metadata opts
        = Return (negb (existsb (fun entry =>
                                   found (indexOf (toLowerCase (filename metadata)) entry))
                          (PRESERVE_FILES P)
                        || existsb (fun level => String.eqb level (toLowerCase name))
                             (PRESERVE_LEVELS P))))
    /\ (strip opts = StripMapping [("production", true)] ->
        NODE_ENV P = Some "production" ->
        PRESERVE_CONTEXTS P = [] ->
        (shouldStrip P "warn" metadata opts = Return false
         <-> In "warn" (PRESERVE_LEVELS P)
             \/ exists entry, In entry (PRESERVE_FILES P)
                  /\ found (indexOf (toLowerCase (filename metadata)) entry) = true)
        /\ (shouldStrip P "warn" metadata opts = Return true
            <-> ~ In "warn" (PRESERVE_LEVELS P)
                /\ forall entry, In entry (PRESERVE_FILES P) ->
                     found (indexOf (toLowerCase (filename metadata)) entry) = false)).
Proof.
  intros P name metadata opts.
  assert (Hmatch : forall name',
            stripTruthy (strip opts) = true ->
            (strip opts = StripBoolean true
             \/ (exists env, strip opts = StripString env /\ NODE_ENV P = Some env)
             \/ (exists m env, strip opts = StripMapping m /\ NODE_ENV P = Some env
                               /\ get m env = Some true)) ->
            shouldStrip P name' metadata opts =
              (override <- hasStripOverride P name' metadata ;; Return (negb override))).
  { intros name' Ht Hm. apply shouldStrip_match; [exact Ht|].
    destruct Hm as [H|[(env & Hs & He)|(m & env & Hs & He & Hg)]].
    - rewrite H. reflexivity.
    - unfold stripIsEnv. rewrite Hs, He, String.eqb_refl.
      apply orb_true_iff. left. apply orb_true_r.
    - unfold stripHasEnv. rewrite Hs, He, Hg. apply orb_true_r. }
  split; [apply shouldStrip_falsy|]. split; [|split].
  - intros Hm. unfold shouldStrip. rewrite Hm.
    destruct (negb (stripTruthy (strip opts))); reflexivity.
  - intros Ht Hm Hc. rewrite (Hmatch name Ht Hm).
    rewrite (hasStripOverride_no_context P name metadata Hc). reflexivity.
  - intros Hs He Hc.
    assert (Hshape : shouldStrip P "warn" metadata opts
              = Return (negb (existsb (fun entry =>
                                         found (indexOf (toLowerCase (filename metadata)) entry))
                                (PRESERVE_FILES P)
                              || existsb (fun level => String.eqb level "warn")
                                   (PRESERVE_LEVELS P)))).
    { rewrite (Hmatch "warn").
      - rewrite (hasStripOverride_no_context P "warn" metadata Hc). reflexivity.
      - rewrite Hs. reflexivity.
      - right. right. exists [("production", true)], "production". auto. }
    assert (Hlevel : existsb (fun level => String.eqb level "warn") (PRESERVE_LEVELS P) = true
                     <-> In "warn" (PRESERVE_LEVELS P)).
    { rewrite existsb_exists. split.
      - intros (x & Hx & E). apply String.eqb_eq in E. subst x. exact Hx.
      - intros Hin. exists "warn". split; [exact Hin|reflexivity]. }
    rewrite Hshape.
    destruct (existsb (fun entry => found (indexOf (toLowerCase (filename metadata)) entry))
                (PRESERVE_FILES P)) eqn:Hf;
      destruct (existsb (fun level => String.eqb level "warn") (PRESERVE_LEVELS P)) eqn:Hl;
      cbn [orb negb].
    + apply existsb_exists in Hf. split; split; try discriminate; auto.
      intros [Hno _]. exfalso. apply Hno, Hlevel. reflexivity.
    + apply existsb_exists in Hf. split; split; try discriminate; auto.
      intros [_ Hall]. destruct Hf as (entry & Hin & Hfound).
      rewrite (Hall entry Hin) in Hfound. discriminate Hfound.
    + split; split; try discriminate.
      * intros _. left. apply Hlevel. reflexivity.
      * intros _. reflexivity.
      * intros [Hno _]. exfalso. apply Hno, Hlevel. reflexivity.
    + split; split; try discriminate; try reflexivity.
      * intros [Hin|(entry & Hin & Hfound)].
        -- apply Hlevel in Hin. discriminate Hin.
        -- assert (Ht : existsb (fun entry =>
                                   found (indexOf (toLowerCase (filename metadata)) entry))
                          (PRESERVE_FILES P) = true)
             by (apply existsb_exists; eauto).
           congruence.
      * intros _. split.
        -- intros Hin. apply Hlevel in Hin. discriminate Hin.
        -- intros entry Hin.
           destruct (found (indexOf (toLowerCase (filename metadata)) entry)) eqn:Hfound;
             [|reflexivity].
           assert (Ht : existsb (fun entry =>
                                   found (indexOf (toLowerCase (filename metadata)) entry))
                          (PRESERVE_FILES P) = true)
             by (apply existsb_exists; eauto).
           congruence.
Qed.

Lemma C2_witness :
  shouldStrip productionKeepWarn "warn" sampleMetadata (optionsWith None StripUndefined)
    = Return false
  /\ shouldStrip production "warn" sampleMetadata (optionsWith None (StripString "staging"))
     = Return false
  /\ shouldStrip production "warn" sampleMetadata (optionsWith None (StripBoolean true))
     = Return true
  /\ shouldStrip productionKeepWarn "warn" sampleMetadata
       (optionsWith None (StripMapping [("production", true)])) = Return false
  /\ shouldStrip production "warn" sampleMetadata
       (optionsWith None (StripMapping [("production", true)])) = Return true.
Proof.
  split.
  { apply (proj1 (C2_shouldStrip_layered_policy productionKeepWarn "warn" sampleMetadata
                    (optionsWith None StripUndefined))). reflexivity. }
  split.
  { apply (proj1 (proj2 (C2_shouldStrip_layered_policy production "warn" sampleMetadata
                           (optionsWith None (StripString "staging"))))). reflexivity. }
  split.
  { apply (proj1 (proj2 (proj2 (C2_shouldStrip_layered_policy production "warn"
                                  sampleMetadata
                                  (optionsWith None (StripBoolean true)))))
             eq_refl (or_introl eq_refl) eq_refl). }
  split.
  { apply (proj2 (proj2 (proj2 (C2_shouldStrip_layered_policy productionKeepWarn "warn"
                                  sampleMetadata
                                  (optionsWith None (StripMapping [("production", true)]))))));
      try reflexivity.
    left. vm_compute. right. left. reflexivity. }
  { apply (proj2 (proj2 (proj2 (C2_shouldStrip_layered_policy production "warn" sampleMetadata
                                  (optionsWith None (StripMapping [("production", true)]))))));
      try reflexivity.
    split; [vm_compute; intros []|]. intros entry Hin. destruct Hin. }
Defined.

(** C2 as stated fails at its own example, [strip: {production:
    true}] in the production environment: with [TRACE_FILE=a.js] a
    [warn] label of the file [a.js] is kept although [TRACE_LEVEL] does
    not list [warn]. *)
Lemma C2_counterexample :
  ~ In "warn" (PRESERVE_LEVELS productionKeepFile)
  /\ shouldStrip productionKeepFile "warn" sampleMetadata
       (optionsWith None (StripMapping [("production", true)])) = Return false.
Proof.
  split; [vm_compute; intros []|reflexivity].
Qed.

(** C5. Once [TRACE_CONTEXT] has an entry and the strip policy
    matches, the override check does not answer: it throws the
    [TypeError] of reading [toLowerCase] on the [context] that the
    metadata record lacks, and [shouldStrip] throws with it. *)
Theorem C5_context_override_throws :
  forall P name metadata opts,
    PRESERVE_CONTEXTS P <> [] ->
    stripTruthy (strip opts) = true ->
    stripIsTrue (strip opts) || stripIsEnv P (strip opts) || stripHasEnv P (strip opts) = true ->
    hasStripOverride P name metadata =
      Throw (TypeError "Cannot read property 'toLowerCase' of undefined")
    /\ shouldStrip P name metadata opts =
         Throw (TypeError "Cannot read property 'toLowerCase' of undefined").
Proof.
  intros P name metadata opts Hc Ht Hm.
  pose proof (hasStripOverride_context_throws P name metadata Hc) as H.
  split; [exact H|].
  rewrite (shouldStrip_match P name metadata opts Ht Hm), H. reflexivity.
Qed.

Lemma C5_witness :
  hasStripOverride productionKeepLogin "debug" sampleMetadata =
    Throw (TypeError "Cannot read property 'toLowerCase' of undefined")
  /\ shouldStrip productionKeepLogin "debug" sampleMetadata
       (optionsWith None (StripBoolean true)) =
     Throw (TypeError "Cannot read property 'toLowerCase' of undefined").
Proof.
  apply (C5_context_override_throws productionKeepLogin "debug" sampleMetadata
           (optionsWith None (StripBoolean true))).
  - vm_compute. discriminate.
  - reflexivity.
  - reflexivity.
Defined.

(** ** Option normalization *)

Lemma normalizeOpts_normalized P opts :
  normalized (fst (normalizeOpts P opts)) = true.
Proof.
  unfold normalizeOpts. destruct (normalized opts) eqn:Hn; [exact Hn|].
  destruct (aliases opts) as [table|]; [|reflexivity].
  destruct (fold_left (compileKey P) (keys table) (table, [])). reflexivity.
Qed.

(** C8. [normalizeOpts] is idempotent: on options it has already
    returned it returns them as they are and compiles no template; and
    on options without [aliases] the first call installs the 15 default
    entries, for each level the bare name and the [Values] name with
    the [values] flag [true] and the [Refs] name with the flag
    [false]. *)
Theorem C8_normalizeOpts_idempotent :
  forall P opts,
    normalizeOpts P (fst (normalizeOpts P opts)) = (fst (normalizeOpts P opts), [])
    /\ (normalized opts = false -> aliases opts = None ->
        aliases (fst (normalizeOpts P opts)) = Some (defaultAliases (parse P))
        /\ snd (normalizeOpts P opts) = []
        /\ length (defaultAliases (parse P)) = 15
        /\ keys (defaultAliases (parse P)) =
             flat_map (fun level => [level; level ++ "Values"; level ++ "Refs"]%string) levels
        /\ forall level, In level levels ->
             get (defaultAliases (parse P)) level
               = Some (AliasFunction
                         (fun f content metadata => nrserLog (parse P) f content metadata true level))
             /\ get (defaultAliases (parse P)) (level ++ "Values")%string
               = Some (AliasFunction
                         (fun f content metadata => nrserLog (parse P) f content metadata true level))
             /\ get (defaultAliases (parse P)) (level ++ "Refs")%string
               = Some (AliasFunction
                         (fun f content metadata => nrserLog (parse P) f content metadata false level))).
Proof.
  intros P opts. split.
  - unfold normalizeOpts at 1. rewrite normalizeOpts_normalized. reflexivity.
  - intros Hn Ha. unfold normalizeOpts. rewrite Hn, Ha.
    split; [reflexivity|]. split; [reflexivity|]. split; [reflexivity|].
    split; [reflexivity|].
    intros level Hin. simpl in Hin.
    destruct Hin as [H|[H|[H|[H|[H|[]]]]]]; subst level; repeat split; reflexivity.
Qed.

Lemma C8_witness :
  aliases (fst (normalizeOpts development (optionsWith None StripUndefined)))
    = Some (defaultAliases sampleParse)
  /\ get (defaultAliases sampleParse) "debugRefs"
     = Some (AliasFunction
               (fun f content metadata => nrserLog sampleParse f content metadata false "debug")).
Proof.
  pose proof (proj2 (C8_normalizeOpts_idempotent development (optionsWith None StripUndefined))
                eq_refl eq_refl) as H.
  split; [apply H|].
  destruct H as (_ & _ & _ & _ & H).
  apply (H "debug"). simpl. right. right. right. left. reflexivity.
Defined.

(** ** The visitor, step by step *)

Lemma visitor_unfold P path opts label l body :
  node path = LabeledStatement label l body ->
  LabeledStatement_visitor P path opts =
    (let opts := fst (normalizeOpts P opts) in
     alias <- readAlias opts label ;;
     if negb (truthy alias) then Return (opts, Untouched)
     else
       metadata <- collectMetadata P path opts ;;
       stripped <- shouldStrip P label metadata opts ;;
       if stripped then Return (opts, Remove)
       else
         body' <- traverse (sideEffectError l)
                    (fun content => callAlias alias (logFunctionOf opts) content metadata)
                    body ;;
         match body' with
         | BlockStatement statements => Return (opts, ReplaceWithMultiple statements)
         | _ => Return (opts, ReplaceWith body')
         end).
Proof.
  intros H. unfold LabeledStatement_visitor. rewrite H. reflexivity.
Qed.


(** C10. When the strip decision is to strip, the statement is removed
    and its body is never inspected: side effects in the body raise no
    error and go away with the statement. *)
Theorem C10_strip_skips_purity_check :
  forall P path opts label l body alias metadata,
    node path = LabeledStatement label l body ->
    readAlias (fst (normalizeOpts P opts)) label = Return alias ->
    truthy alias = true ->
    collectMetadata P path (fst (normalizeOpts P opts)) = Return metadata ->
    shouldStrip P label metadata (fst (normalizeOpts P opts)) = Return true ->
    LabeledStatement_visitor P path opts = Return (fst (normalizeOpts P opts), Remove).
Proof.
  intros P path opts label l body alias metadata Hn Ha Ht Hm Hs.
  rewrite (visitor_unfold P path opts Hn).
  cbv zeta. rewrite Ha. cbn [bind]. rewrite Ht. cbn [negb].
  rewrite Hm. cbn [bind]. rewrite Hs. reflexivity.
Qed.

Lemma C10_witness :
  containsSideEffect (ExpressionStatement false assignment) = true
  /\ LabeledStatement_visitor development
       (statementPath "a.js" (doSomething assignment) 0)
       (optionsWith None (StripBoolean true))
     = Return (fst (normalizeOpts development (optionsWith None (StripBoolean true))), Remove).
Proof.
  split; [reflexivity|].
  eapply (C10_strip_skips_purity_check development
            (statementPath "a.js" (doSomething assignment) 0)
            (optionsWith None (StripBoolean true))
            (label := "debug") (l := 7) (body := ExpressionStatement false assignment)
            (alias := Own (AliasFunction (makeNrserLog sampleParse None "debug")))
            (metadata := sampleMetadata)); reflexivity.
Defined.

(** ** The alias guard *)

(** The guard of index.js:322 lets through every name that
    [Object.prototype] defines. *)
Lemma guard_admits_inherited table name :
  get table name = None -> inPrototype name = true ->
  truthy (property table name) = true.
Proof.
  intros Hg Hp. unfold property. rewrite Hg, Hp. reflexivity.
Qed.

(** A name that is neither a key of the table nor inherited stops at
    the guard: nothing is collected, decided or rewritten. *)
Lemma guard_stops_unknown P path opts label l body table :
  node path = LabeledStatement label l body ->
  aliases (fst (normalizeOpts P opts)) = Some table ->
  get table label = None -> inPrototype label = false ->
  LabeledStatement_visitor P path opts = Return (fst (normalizeOpts P opts), Untouched).
Proof.
  intros Hn Ha Hg Hp. rewrite (visitor_unfold P path opts Hn).
  cbv zeta. unfold readAlias, property. rewrite Ha, Hg, Hp. reflexivity.
Qed.

(** C9, on the code. [toString] is no key of the default alias table,
    yet the guard reads the inherited [Object.prototype.toString] and
    lets the label through, as it does for every name that
    [Object.prototype] defines: its metadata is collected and the strip
    decision taken, so that [strip: true] removes the statement, and
    without stripping the rewrite fails on calling the inherited
    member. *)
Theorem C9_inherited_name_passes_guard :
  (forall parse, get (defaultAliases parse) "toString" = None)
  /\ (forall parse,
        Forall (fun name => get (defaultAliases parse) name = None
                            /\ truthy (property (defaultAliases parse) name) = true)
          objectPrototype)
  /\ collectMetadata development (topLevelPath "a.js" [toStringLabel] 0)
       (fst (normalizeOpts development (optionsWith None (StripBoolean true))))
     = Return {| indent := 0; parentPath := []; filename := "a.js";
                 filepath := "/work/a.js"; hasStartMessage := false;
                 isStartMessage := false; line := 1 |}
  /\ LabeledStatement_visitor development (topLevelPath "a.js" [toStringLabel] 0)
       (optionsWith None (StripBoolean true))
     = Return (fst (normalizeOpts development (optionsWith None (StripBoolean true))), Remove)
  /\ LabeledStatement_visitor development (topLevelPath "a.js" [toStringLabel] 0)
       (optionsWith None StripUndefined)
     = Throw (TypeError "Property expression of ExpressionStatement expected a node").
Proof.
  split; [reflexivity|]. split.
  - intros parse. unfold objectPrototype. repeat constructor.
  - repeat split; reflexivity.
Qed.

(** ** User-supplied templates *)

(** The synthesizer stored for a template source answers from the log
    function name alone: the content node and the metadata do not reach
    the template. *)
Lemma compiledAlias_ignores_content expr logFunction content content' metadata metadata' :
  compiledAlias expr logFunction content metadata
  = compiledAlias expr logFunction content' metadata'.
Proof. reflexivity. Qed.

(** C6, on the code. The source of a string-valued alias is compiled
    once, by the first [normalizeOpts], and not again by the second.
    The synthesizer stored for it passes its first argument, the log
    function name, to the template as the whole slot table, so neither
    [content] nor [metadata] is a slot: [debug: x;] under the template
    [LOG(content)] becomes [LOG(content)], the identifier left as it
    was, whatever the logged expression. *)
Theorem C6_template_alias_gets_no_slots :
  snd (normalizeOpts development templateOptions) = ["LOG(content)"]
  /\ snd (normalizeOpts development (fst (normalizeOpts development templateOptions))) = []
  /\ (forall logged,
        LabeledStatement_visitor development
          (statementPath "a.js" (doSomething logged) 0) templateOptions
        = Return (fst (normalizeOpts development templateOptions),
                  ReplaceWith (ExpressionStatement true
                                 (CallExpression (Identifier "LOG") [Identifier "content"]))))
  /\ (forall expr logFunction content content' metadata metadata',
        compiledAlias expr logFunction content metadata
        = compiledAlias expr logFunction content' metadata').
Proof.
  split; [reflexivity|]. split; [reflexivity|]. split.
  - intros logged. reflexivity.
  - intros. reflexivity.
Qed.

(** ** The built-in synthesizer *)

Lemma get_absent (V : Type) (o : list (string * V)) (k : string) :
  existsb (fun k' => String.eqb k' k) (keys o) = false -> get o k = None.
Proof.
  induction o as [|[k' v] o IH]; simpl; [reflexivity|].
  intros H. apply orb_false_iff in H. destruct H as [H1 H2].
  rewrite H1. apply IH, H2.
Qed.

Lemma slotNames_keys content metadata values level :
  keys (addIdentifiers (nrserLogNodes content metadata values level)) = slotNames.
Proof. reflexivity. Qed.

(** The template over a table of nodes. *)
Section SubstituteFacts.
Variable o : list (string * Node).

Lemma substitute_statement h e :
  (forall name, e <> Identifier name) ->
  substitute (IdsObject o) (ExpressionStatement h e)
  = (e' <- substitute (IdsObject o) e ;; Return (ExpressionStatement h e')).
Proof.
  intros H. destruct e; try reflexivity. exfalso. eapply H. reflexivity.
Qed.

Lemma substitute_statement_identifier h name :
  substitute (IdsObject o) (ExpressionStatement h (Identifier name))
  = Return (orElse (get o name) (ExpressionStatement h (Identifier name))).
Proof. reflexivity. Qed.

Lemma identifier_or_not (e : Node) :
  (exists name, e = Identifier name) \/ (forall name, e <> Identifier name).
Proof.
  destruct e; try (right; intros; discriminate). left. eauto.
Qed.

Lemma mapM_unchanged (l : list Node) :
  Forall (fun n => mentions (keys o) n = false -> substitute (IdsObject o) n = Return n) l ->
  existsb (mentions (keys o)) l = false ->
  mapM (substitute (IdsObject o)) l = Return l.
Proof.
  induction 1 as [|x l Hx _ IH]; intros Hm; simpl; [reflexivity|].
  simpl in Hm. apply orb_false_iff in Hm. destruct Hm as [H1 H2].
  rewrite (Hx H1). simpl. rewrite (IH H2). reflexivity.
Qed.

(** A tree that names no slot comes out of the template as it went
    in. *)
Lemma substitute_unchanged (n : Node) :
  mentions (keys o) n = false -> substitute (IdsObject o) n = Return n.
Proof.
  induction n using Node_induction; intros Hm; simpl in Hm;
    try reflexivity;
    try (simpl; rewrite (mapM_unchanged H Hm); reflexivity);
    try (apply orb_false_iff in Hm; destruct Hm as [H1 H2]; simpl;
         rewrite (IHn1 H1); simpl; rewrite (IHn2 H2); reflexivity);
    try (simpl; rewrite (IHn Hm); reflexivity).
  - (* Identifier *)
    simpl. rewrite (get_absent o name Hm). reflexivity.
  - (* CallExpression *)
    apply orb_false_iff in Hm. destruct Hm as [H1 H2]. simpl.
    rewrite (IHn H1). simpl. rewrite (mapM_unchanged H H2). reflexivity.
  - (* YieldExpression *)
    destruct o0 as [a|]; simpl; [|reflexivity]. rewrite (H a eq_refl Hm). reflexivity.
  - (* ExpressionStatement *)
    destruct (identifier_or_not n) as [[name E]|E].
    + subst n. rewrite substitute_statement_identifier.
      simpl in Hm. rewrite (get_absent o name Hm). reflexivity.
    + rewrite (substitute_statement h E), (IHn Hm). reflexivity.
  - (* ReturnStatement *)
    destruct o0 as [a|]; simpl; [|reflexivity]. rewrite (H a eq_refl Hm). reflexivity.
Qed.

Lemma mapM_substituted (l : list Node) :
  Forall (fun n => exists n', substitute (IdsObject o) n = Return n') l ->
  exists l', mapM (substitute (IdsObject o)) l = Return l'.
Proof.
  induction 1 as [|x l [x' Hx] _ [l' IH]]; simpl; [eauto|].
  rewrite Hx. simpl. rewrite IH. simpl. eauto.
Qed.

(** Over a table of nodes the template always gives a tree. *)
Lemma substitute_returns (n : Node) : exists n', substitute (IdsObject o) n = Return n'.
Proof.
  induction n using Node_induction;
    try (simpl; eauto; fail);
    try (destruct (mapM_substituted H) as [l' El]; simpl; rewrite El; simpl; eauto; fail);
    try (destruct IHn1 as [a Ea], IHn2 as [b Eb]; simpl; rewrite Ea; simpl; rewrite Eb;
         simpl; eauto; fail);
    try (destruct IHn as [a Ea]; simpl; rewrite Ea; simpl; eauto; fail).
  - (* CallExpression *)
    destruct IHn as [a Ea], (mapM_substituted H) as [l' El].
    simpl. rewrite Ea. simpl. rewrite El. simpl. eauto.
  - (* YieldExpression *)
    destruct o0 as [a|]; simpl; [|eauto]. destruct (H a eq_refl) as [a' Ea].
    rewrite Ea. simpl. eauto.
  - (* ExpressionStatement *)
    destruct (identifier_or_not n) as [[name E]|E].
    + subst n. rewrite substitute_statement_identifier. eauto.
    + rewrite (substitute_statement h E). destruct IHn as [a Ea]. rewrite Ea. simpl. eauto.
  - (* ReturnStatement *)
    destruct o0 as [a|]; simpl; [|eauto]. destruct (H a eq_refl) as [a' Ea].
    rewrite Ea. simpl. eauto.
Qed.
End SubstituteFacts.

(** Where the parser reads the template of [nrserLog] as the call of
    [callee] on the object literal, [nrserLog] gives the call of the
    substituted callee on the object of the seven literals. *)
Lemma nrserLog_parsed parse logFunction content metadata values level callee :
  parse (nrserLogText logFunction) = nrserLogTree callee ->
  nrserLog parse logFunction content metadata values level
  = (callee' <- substitute
                  (IdsObject (addIdentifiers (nrserLogNodes content metadata values level)))
                  callee ;;
     Return (logCallTo callee' values level (contentEntries content) metadata)).
Proof.
  intros Hp. unfold nrserLog, expression, template, expressionOf, compiled.
  rewrite Hp. unfold nrserLogTree.
  change (substitute ?ids (ExpressionStatement false (CallExpression ?c ?args)))
    with (e' <- (c' <- substitute ids c ;;
                 l' <- mapM (substitute ids) args ;; Return (CallExpression c' l')) ;;
          Return (ExpressionStatement false e')).
  destruct (substitute _ callee) as [callee'|e]; reflexivity.
Qed.





(** ** The traversal below the label *)

(** A node of a type the purity visitor names holds a side effect. *)
Lemma isSideEffect_contains n : isSideEffect n = true -> containsSideEffect n = true.
Proof. destruct n; simpl; intros H; try discriminate H; reflexivity. Qed.

Section TraverseFacts.
Variable error : Error.
Variable synthesize : Node -> Result Node.

(** The synthesizer returns, and keeps side effects as they are. *)
Hypothesis synthesize_faithful :
  forall e, exists r, synthesize e = Return r
                      /\ containsSideEffect r = containsSideEffect e.



End TraverseFacts.

(** What the traversal returns under a synthesizer that always returns
    [call] of the expression. *)
Section TraverseRewrites.
Variable error : Error.
Variable synthesize : Node -> Result Node.
Variable call : Node -> Node.
Hypothesis synthesize_call : forall e, synthesize e = Return (call e).

Ltac run H :=
  repeat match type of H with
         | bind ?r _ = Return _ =>
             let E := fresh "E" in destruct r eqn:E; cbn [bind] in H; [|discriminate H]
         | (if ?b then _ else _) = Return _ => destruct b; [discriminate H|]
         end;
  try discriminate H; injection H as H; subst.


End TraverseRewrites.


(** C3, on the code. The purity visitor and the rewrite of the
    expression statements share one traversal: a statement is replaced
    when it is entered and only its replacement is checked.  Under the
    default alias [debug: (x = 1);] raises the side-effect error, since
    the built-in synthesizer embeds the logged expression; under an
    alias whose synthesizer does not embed it, a function of the user's
    or a template source, the same statement is rewritten and the
    assignment goes unreported. *)
Theorem C3_purity_check_sees_the_replacement_only :
  containsSideEffect (ExpressionStatement false assignment) = true
  /\ LabeledStatement_visitor development (statementPath "a.js" (doSomething assignment) 0)
       (optionsWith None StripUndefined)
     = Throw (CodeFrameError 7 "Logging statements cannot have side effects.")
  /\ LabeledStatement_visitor development (statementPath "a.js" (doSomething assignment) 0)
       markerOptions
     = Return (fst (normalizeOpts development markerOptions),
               ReplaceWith (ExpressionStatement true (CallExpression (Identifier "mark") [])))
  /\ LabeledStatement_visitor development (statementPath "a.js" (doSomething assignment) 0)
       templateOptions
     = Return (fst (normalizeOpts development templateOptions),
               ReplaceWith (ExpressionStatement true
                              (CallExpression (Identifier "LOG") [Identifier "content"]))).
Proof.
  repeat split; reflexivity.
Qed.




(** ** Start messages *)

Lemma keyEqb_refl k : keyEqb k k = true.
Proof.
  destruct k; simpl; rewrite ?String.eqb_refl, ?Nat.eqb_refl; reflexivity.
Qed.

Lemma keysEqb_refl l : keysEqb l l = true.
Proof.
  induction l as [|k l IH]; simpl; [reflexivity|]. rewrite keyEqb_refl. exact IH.
Qed.

Lemma sameNode_refl p : sameNode p p = true.
Proof. apply keysEqb_refl. Qed.

Lemma ancestorStep_keeps_parent w item q :
  found_parent w = Some q -> found_parent (ancestorStep w item) = Some q.
Proof.
  intros H. unfold ancestorStep, markParent.
  destruct (node item); simpl; rewrite ?H; auto.
Qed.

Lemma walk_keeps_parent l w q :
  found_parent w = Some q -> found_parent (fold_left ancestorStep l w) = Some q.
Proof.
  revert w. induction l as [|item l IH]; simpl; intros w H; [exact H|].
  apply IH, ancestorStep_keeps_parent, H.
Qed.

(** For a statement of a function's body the enclosing scope is that
    function, and the two flags are what the scan of the body gives. *)
Lemma collectMetadata_in_function P opts t id fl k outer file statements n i flags :
  let fpath := mkNodePath (FunctionNode t id fl (BlockStatement statements)) k outer file in
  let bpath := mkNodePath (BlockStatement statements) (Field "body") (Some fpath) file in
  let path := mkNodePath n (Index "body" i) (Some bpath) file in
  startMessage path opts (indexed bpath 0 statements) = Return flags ->
  exists metadata,
    collectMetadata P path opts = Return metadata
    /\ hasStartMessage metadata = fst flags
    /\ isStartMessage metadata = snd flags.
Proof.
  intros fpath bpath path Hscan. unfold collectMetadata.
  change (tl (getAncestry path)) with (bpath :: getAncestry fpath).
  change (getAncestry fpath)
    with (fpath :: match outer with Some q => getAncestry q | None => [] end).
  cbn [fold_left].
  set (w := ancestorStep (ancestorStep _ bpath) fpath).
  assert (Hw : found_parent w = Some fpath) by reflexivity.
  rewrite (walk_keeps_parent _ w Hw).
  change (isProgram fpath) with false. cbv iota.
  change (bodyOfBody fpath) with (Return (indexed bpath 0 statements)).
  cbn [bind]. rewrite Hscan. cbn [bind].
  eexists. split; [reflexivity|]. split; reflexivity.
Qed.

(** C4, amended. Of two adjacent [debug:] labels at the top of a
    function body, the first is collected with [hasStartMessage] and
    [isStartMessage] both [true]; once the visitor has replaced it by
    its handled log call, the second is collected with
    [hasStartMessage = true] and [isStartMessage = false]. *)
Theorem C4_start_message_of_adjacent_labels :
  forall P opts t id fl k outer outer' file l1 l2 logged second rest action,
    let before :=
      LabeledStatement "debug" l1 (ExpressionStatement false logged)
        :: LabeledStatement "debug" l2 second :: rest in
    let fpath := mkNodePath (FunctionNode t id fl (BlockStatement before)) k outer file in
    let after := splice before 0 action in
    let fpath' := mkNodePath (FunctionNode t id fl (BlockStatement after)) k outer' file in
    (exists alias, readAlias (fst (normalizeOpts P opts)) "debug" = Return alias
                   /\ truthy alias = true) ->
    LabeledStatement_visitor P (bodyStatement fpath 0) opts
      = Return (fst (normalizeOpts P opts), action) ->
    action <> Remove ->
    (exists first,
       collectMetadata P (bodyStatement fpath 0) (fst (normalizeOpts P opts)) = Return first
       /\ hasStartMessage first = true /\ isStartMessage first = true)
    /\ (exists replacement, after =
          ExpressionStatement true replacement :: LabeledStatement "debug" l2 second :: rest)
    /\ node (bodyStatement fpath' 1) = LabeledStatement "debug" l2 second
    /\ (exists next,
          collectMetadata P (bodyStatement fpath' 1) (fst (normalizeOpts P opts)) = Return next
          /\ hasStartMessage next = true /\ isStartMessage next = false).
Proof.
  intros P opts t id fl k outer outer' file l1 l2 logged second rest action
         before fpath after fpath' (alias & Ha & Ht) Hv Hkeep.
  set (opts' := fst (normalizeOpts P opts)) in *.
  set (bpath := mkNodePath (BlockStatement before) (Field "body") (Some fpath) file).
  set (path := mkNodePath (LabeledStatement "debug" l1 (ExpressionStatement false logged))
                 (Index "body" 0) (Some bpath) file).
  change (bodyStatement fpath 0) with path in *.
  assert (Hscan : startMessage path opts' (indexed bpath 0 before)
                  = Return (true, sameNode path path)).
  { cbn [indexed before startMessage node]. change (node path)
      with (LabeledStatement "debug" l1 (ExpressionStatement false logged)).
    cbv iota. rewrite Ha. cbn [bind]. rewrite Ht. reflexivity. }
  destruct (collectMetadata_in_function P opts' t id fl k outer file before
              (LabeledStatement "debug" l1 (ExpressionStatement false logged)) 0
              Hscan) as (first & Hfirst & Hhas & His).
  fold fpath bpath path in Hfirst.
  rewrite sameNode_refl in His. cbn [fst snd] in Hhas, His.
  assert (Hafter : exists replacement,
            after = ExpressionStatement true replacement
                      :: LabeledStatement "debug" l2 second :: rest).
  { rewrite (visitor_unfold P path opts (label := "debug") (l := l1)
               (body := ExpressionStatement false logged) eq_refl) in Hv.
    cbv zeta in Hv. fold opts' in Hv. rewrite Ha in Hv. cbn [bind] in Hv.
    rewrite Ht in Hv. cbn [negb] in Hv. rewrite Hfirst in Hv. cbn [bind] in Hv.
    destruct (shouldStrip P "debug" first opts') as [[|]|e]; cbn [bind] in Hv;
      [congruence| |discriminate].
    cbn [traverse] in Hv.
    destruct (callAlias alias (logFunctionOf opts') logged first) as [r|e];
      cbn [bind] in Hv; [|discriminate].
    destruct (containsSideEffect r); cbn [bind] in Hv; [discriminate|].
    exists r. injection Hv as Hv. subst action. reflexivity. }
  split; [exists first; auto|]. split; [exact Hafter|].
  destruct Hafter as [replacement Hafter].
  set (bpath' := mkNodePath (BlockStatement after) (Field "body") (Some fpath') file).
  assert (Hsecond : bodyStatement fpath' 1
                    = mkNodePath (LabeledStatement "debug" l2 second)
                        (Index "body" 1) (Some bpath') file).
  { unfold bodyStatement, bpath'.
    change (bodyOfBody fpath') with (Return (indexed bpath' 0 after)). unfold bpath'.
    rewrite Hafter. reflexivity. }
  rewrite Hsecond. split; [reflexivity|].
  assert (Hscan' : startMessage
                     (mkNodePath (LabeledStatement "debug" l2 second)
                        (Index "body" 1) (Some bpath') file)
                     opts' (indexed bpath' 0 after) = Return (true, false)).
  { rewrite Hafter. reflexivity. }
  destruct (collectMetadata_in_function P opts' t id fl k outer' file after
              (LabeledStatement "debug" l2 second) 1 Hscan')
    as (next & Hnext & Hhas' & His').
  exists next. auto.
Qed.

Lemma C4_witness :
  (exists first,
     collectMetadata development (statementPath "a.js" twoLabels 0)
       (fst (normalizeOpts development (optionsWith None StripUndefined))) = Return first
     /\ hasStartMessage first = true /\ isStartMessage first = true)
  /\ (exists next,
        collectMetadata development (statementPath "a.js" twoLabelsAfter 1)
          (fst (normalizeOpts development (optionsWith None StripUndefined))) = Return next
        /\ hasStartMessage next = true /\ isStartMessage next = false).
Proof.
  pose proof (C4_start_message_of_adjacent_labels development
                (optionsWith None StripUndefined) FunctionDeclaration (Some "f") 1
                (Index "body" 0)
                (Some (mkNodePath (Program [twoLabels]) (Field "program") None "a.js"))
                (Some (mkNodePath (Program [twoLabelsAfter]) (Field "program") None "a.js"))
                "a.js" 2 3 (Identifier "a") (ExpressionStatement false (Identifier "b")) []
                (action := ReplaceWith (nth 0 (match twoLabelsAfter with
                                               | FunctionNode _ _ _ (BlockStatement l) => l
                                               | _ => []
                                               end) (Identifier "")))
                (ex_intro _ (Own (AliasFunction (makeNrserLog sampleParse None "debug")))
                   (conj eq_refl eq_refl))
                eq_refl) as H.
  destruct H as (H1 & _ & _ & H2); [discriminate|].
  split; [exact H1|exact H2].
Defined.

(** C4 as stated fails on the first label: the scan sets
    [hasStartMessage] before it compares the statement with the current
    one, so the first label has the flag [true], not [false]. *)
Lemma C4_counterexample :
  ~ (exists first,
       collectMetadata development (statementPath "a.js" twoLabels 0)
         (fst (normalizeOpts development (optionsWith None StripUndefined))) = Return first
       /\ hasStartMessage first = false /\ isStartMessage first = true).
Proof.
  intros (first & H & Hhas & _). vm_compute in H.
  injection H as H. subst first. discriminate Hhas.
Qed.

(** ** Unwrapping the label *)

Section Nesting.
Variable error : Error.
Variable synthesize : Node -> Result Node.

Lemma mapM_rewritten (l l' : list Node) :
  mapM (traverse error synthesize) l = Return l' ->
  Forall2 (fun s s' => traverse error synthesize s = Return s') l l'.
Proof.
  revert l'. induction l as [|x l IH]; simpl; intros l' H.
  - injection H as H. subst l'. constructor.
  - destruct (traverse error synthesize x) as [x'|] eqn:Ex; simpl in H; [|discriminate].
    destruct (mapM (traverse error synthesize) l) as [l0|] eqn:El; simpl in H; [|discriminate].
    injection H as H. subst l'. constructor; [exact Ex|]. apply IH. reflexivity.
Qed.

Lemma mapM_keeps_nesting (l l' : list Node) :
  Forall (KeepsNesting error synthesize) l ->
  mapM (traverse error synthesize) l = Return l' ->
  map nesting l' = map nesting l.
Proof.
  intros HF H. apply mapM_rewritten in H.
  induction H as [|x x' l l' Hx _ IH]; [reflexivity|].
  inversion HF as [|? ? Hk HF']; subst. simpl. f_equal; [apply Hk, Hx|apply IH, HF'].
Qed.

Ltac run H :=
  repeat match type of H with
         | bind ?r _ = Return _ =>
             let E := fresh "E" in destruct r eqn:E; cbn [bind] in H; [|discriminate H]
         | (if ?b then _ else _) = Return _ => destruct b; [discriminate H|]
         end;
  try discriminate H; injection H as H; subst.

Lemma traverse_keeps_nesting (n : Node) : KeepsNesting error synthesize n.
Proof.
  induction n using Node_induction; intros n' Hn; cbn [traverse] in Hn;
    try (run Hn; reflexivity).
  - (* ExpressionStatement *)
    destruct h; run Hn; reflexivity.
  - (* BlockStatement *)
    run Hn. cbn [nesting]. rewrite (mapM_keeps_nesting H E). reflexivity.
  - (* LabeledStatement *)
    run Hn. cbn [nesting]. rewrite (IHn _ E). reflexivity.
Qed.
End Nesting.

Lemma nesting_member (s : Node) (l : list Node) :
  In s l -> nesting s < nesting (BlockStatement l).
Proof.
  intros Hin. cbn [nesting]. apply Nat.lt_succ_r.
  assert (H : Forall (fun k => k <= list_max (map nesting l)) (map nesting l))
    by (apply list_max_le; reflexivity).
  rewrite Forall_forall in H. apply H, in_map, Hin.
Qed.

(** C7. When the visitor replaces a labeled statement, a block body of
    N statements goes into the enclosing list as N statements, each the
    rewritten form of the statement at its place, and any other body
    goes there as its one rewritten statement; in both cases the
    labeled statement itself is not among what replaces it. *)
Theorem C7_unwrap_on_replace :
  forall P path opts action label l body,
    node path = LabeledStatement label l body ->
    LabeledStatement_visitor P path opts = Return (fst (normalizeOpts P opts), action) ->
    action <> Untouched -> action <> Remove ->
    exists alias metadata,
      readAlias (fst (normalizeOpts P opts)) label = Return alias
      /\ collectMetadata P path (fst (normalizeOpts P opts)) = Return metadata
      /\ let rewrite :=
           traverse (sideEffectError l)
             (fun content =>
                callAlias alias (logFunctionOf (fst (normalizeOpts P opts))) content metadata) in
         (forall statements, body = BlockStatement statements ->
            exists statements',
              action = ReplaceWithMultiple statements'
              /\ length statements' = length statements
              /\ Forall2 (fun s s' => rewrite s = Return s') statements statements'
              /\ ~ In (node path) statements'
              /\ forall container i,
                   splice container i action
                   = firstn i container ++ statements' ++ skipn (S i) container)
         /\ ((forall statements, body <> BlockStatement statements) ->
             exists body',
               action = ReplaceWith body'
               /\ rewrite body = Return body'
               /\ body' <> node path
               /\ forall container i,
                    splice container i action
                    = firstn i container ++ body' :: skipn (S i) container).
Proof.
  intros P path opts action label l body Hn Hv Hu Hr.
  rewrite (visitor_unfold P path opts Hn) in Hv. cbv zeta in Hv.
  destruct (readAlias (fst (normalizeOpts P opts)) label) as [alias|] eqn:Ha;
    cbn [bind] in Hv; [|discriminate].
  destruct (truthy alias); cbn [negb] in Hv; [|congruence].
  destruct (collectMetadata P path (fst (normalizeOpts P opts))) as [metadata|] eqn:Hm;
    cbn [bind] in Hv; [|discriminate].
  destruct (shouldStrip P label metadata (fst (normalizeOpts P opts))) as [[|]|];
    cbn [bind] in Hv; [congruence| |discriminate].
  exists alias, metadata. split; [reflexivity|]. split; [reflexivity|]. cbv zeta.
  set (rewrite := traverse (sideEffectError l)
                    (fun content =>
                       callAlias alias (logFunctionOf (fst (normalizeOpts P opts)))
                         content metadata)) in *.
  destruct (rewrite body) as [body'|] eqn:Hb; cbn [bind] in Hv; [|discriminate].
  pose proof (@traverse_keeps_nesting _ _ body _ Hb) as Hdepth.
  split.
  - intros statements E. subst body. unfold rewrite in Hb. cbn [traverse] in Hb.
    destruct (mapM _ statements) as [statements'|] eqn:El; cbn [bind] in Hb; [|discriminate].
    injection Hb as Hb. subst body'. injection Hv as Hv. subst action.
    exists statements'. split; [reflexivity|].
    pose proof (mapM_rewritten _ _ _ El) as HF.
    split; [symmetry; exact (Forall2_length HF)|]. split; [exact HF|].
    split; [|reflexivity].
    intros Hin. apply nesting_member in Hin. rewrite Hn, Hdepth in Hin.
    cbn [nesting] in Hin. lia.
  - intros Hnb.
    assert (Hshape : forall statements, body' <> BlockStatement statements).
    { intros statements E. subst body'. unfold rewrite in Hb.
      destruct body; cbn [traverse] in Hb;
        try discriminate Hb;
        try (destruct handled);
        repeat match type of Hb with
               | bind ?r _ = Return _ => destruct r; cbn [bind] in Hb; [|discriminate Hb]
               | (if ?b then _ else _) = Return _ => destruct b; [discriminate Hb|]
               end;
        try discriminate Hb.
      eapply Hnb. reflexivity. }
    exists body'.
    assert (Haction : action = ReplaceWith body').
    { destruct body'; try (injection Hv as Hv; subst action; reflexivity).
      exfalso. eapply Hshape. reflexivity. }
    split; [exact Haction|]. split; [reflexivity|]. split.
    + intros E. rewrite Hn in E. rewrite E in Hdepth. cbn [nesting] in Hdepth. lia.
    + intros container i. rewrite Haction. reflexivity.
Qed.

Lemma C7_witness :
  LabeledStatement_visitor development (statementPath "a.js" blockLabel 0)
    (optionsWith None StripUndefined)
  = Return (fst (normalizeOpts development (optionsWith None StripUndefined)),
            ReplaceWithMultiple
              [ExpressionStatement true
                 (logCall "METALOG" true "info" [Identifier "a"] blockMetadata);
               ExpressionStatement true
                 (logCall "METALOG" true "info" [Identifier "b"] blockMetadata)])
  /\ exists alias metadata,
       readAlias (fst (normalizeOpts development (optionsWith None StripUndefined))) "info"
         = Return alias
       /\ collectMetadata development (statementPath "a.js" blockLabel 0)
            (fst (normalizeOpts development (optionsWith None StripUndefined)))
          = Return metadata.
Proof.
  split; [reflexivity|].
  destruct (C7_unwrap_on_replace development (statementPath "a.js" blockLabel 0)
              (optionsWith None StripUndefined)
              (action := ReplaceWithMultiple
                 [ExpressionStatement true
                    (logCall "METALOG" true "info" [Identifier "a"] blockMetadata);
                  ExpressionStatement true
                    (logCall "METALOG" true "info" [Identifier "b"] blockMetadata)])
              (label := "info") (l := 2)
              (body := BlockStatement [ExpressionStatement false (Identifier "a");
                                       ExpressionStatement false (Identifier "b")])
              eq_refl eq_refl)
    as (alias & metadata & Ha & Hm & _); [discriminate|discriminate|].
  exists alias, metadata. split; [exact Ha|exact Hm].
Defined.

(** * Further properties of the code *)

(** ** The environment override reader *)

Lemma lowerAscii_idempotent c : lowerAscii (lowerAscii c) = lowerAscii c.
Proof. destruct c as [[] [] [] [] [] [] [] []]; reflexivity. Qed.

Lemma isSpace_lowerAscii c : isSpace (lowerAscii c) = isSpace c.
Proof. destruct c as [[] [] [] [] [] [] [] []]; reflexivity. Qed.

Lemma toLowerCase_idempotent s : toLowerCase (toLowerCase s) = toLowerCase s.
Proof.
  induction s as [|c s IH]; simpl; [reflexivity|].
  rewrite lowerAscii_idempotent, IH. reflexivity.
Qed.

Lemma toLowerCase_trimStart s : toLowerCase (trimStart s) = trimStart (toLowerCase s).
Proof.
  induction s as [|c s IH]; simpl; [reflexivity|].
  rewrite isSpace_lowerAscii. destruct (isSpace c); [exact IH|reflexivity].
Qed.

Lemma toLowerCase_trimEnd s : toLowerCase (trimEnd s) = trimEnd (toLowerCase s).
Proof.
  induction s as [|c s IH]; simpl; [reflexivity|].
  rewrite <- IH, isSpace_lowerAscii.
  destruct (trimEnd s) as [|d r]; simpl; [destruct (isSpace c)|]; reflexivity.
Qed.

Lemma toLowerCase_trim s : toLowerCase (trim s) = trim (toLowerCase s).
Proof.
  unfold trim. rewrite toLowerCase_trimEnd, toLowerCase_trimStart. reflexivity.
Qed.

Lemma trimStart_clean s : startsClean (trimStart s).
Proof.
  induction s as [|c s IH]; simpl; [exact I|].
  destruct (isSpace c) eqn:E; [exact IH|exact E].
Qed.

Lemma trimStart_fixed s : startsClean s -> trimStart s = s.
Proof.
  destruct s as [|c s]; simpl; [reflexivity|]. intros H. rewrite H. reflexivity.
Qed.

Lemma trimEnd_clean s : startsClean s -> startsClean (trimEnd s).
Proof.
  destruct s as [|c s]; simpl; [auto|]. intros H.
  destruct (trimEnd s); [rewrite H|]; exact H.
Qed.

Lemma trimEnd_idempotent s : trimEnd (trimEnd s) = trimEnd s.
Proof.
  induction s as [|c s IH]; simpl; [reflexivity|].
  destruct (trimEnd s) as [|d r] eqn:E.
  - destruct (isSpace c) eqn:Ec; simpl; [reflexivity|]. rewrite Ec. reflexivity.
  - change (trimEnd (String c (String d r)))
      with (match trimEnd (String d r) with
            | EmptyString => if isSpace c then EmptyString else String c EmptyString
            | rest => String c rest
            end).
    rewrite IH. reflexivity.
Qed.

Lemma trimStart_trimEnd s : trimStart (trimEnd s) = trimEnd (trimStart s).
Proof.
  induction s as [|c s IH]; simpl; [reflexivity|].
  destruct (isSpace c) eqn:Ec.
  - destruct (trimEnd s) as [|d r] eqn:E.
    + rewrite <- IH. reflexivity.
    + rewrite <- IH. simpl. rewrite Ec. reflexivity.
  - destruct (trimEnd s) as [|d r] eqn:E; simpl; rewrite ?E, ?Ec; reflexivity.
Qed.

Lemma trim_trimEnd s : trim (trimEnd s) = trim s.
Proof.
  unfold trim. rewrite trimStart_trimEnd, trimEnd_idempotent. reflexivity.
Qed.

Lemma trim_trimStart s : trim (trimStart s) = trim s.
Proof.
  unfold trim. rewrite (trimStart_fixed _ (trimStart_clean s)). reflexivity.
Qed.

Lemma trim_idempotent s : trim (trim s) = trim s.
Proof.
  unfold trim at 2. rewrite trim_trimEnd, trim_trimStart. reflexivity.
Qed.

Lemma lowerAscii_ascii c :
  Nat.ltb (nat_of_ascii (lowerAscii c)) 128 = Nat.ltb (nat_of_ascii c) 128.
Proof. destruct c as [[] [] [] [] [] [] [] []]; reflexivity. Qed.

Lemma toLowerCase_ascii s : isAscii (toLowerCase s) = isAscii s.
Proof.
  induction s as [|c s IH]; simpl; [reflexivity|].
  rewrite lowerAscii_ascii, IH. reflexivity.
Qed.

Lemma trimStart_ascii s : isAscii s = true -> isAscii (trimStart s) = true.
Proof.
  induction s as [|c s IH]; simpl; [auto|]. intros H.
  destruct (isSpace c); [|exact H].
  apply andb_true_iff in H. apply IH, H.
Qed.

Lemma trimEnd_ascii s : isAscii s = true -> isAscii (trimEnd s) = true.
Proof.
  induction s as [|c s IH]; simpl; [auto|]. intros H.
  apply andb_true_iff in H. destruct H as [Hc Hs].
  specialize (IH Hs). destruct (trimEnd s) as [|d r].
  - destruct (isSpace c); [reflexivity|]. simpl. rewrite Hc. reflexivity.
  - change (isAscii (String c (String d r)))
      with (Nat.ltb (nat_of_ascii c) 128 && isAscii (String d r)).
    rewrite Hc, IH. reflexivity.
Qed.

Lemma trim_ascii s : isAscii s = true -> isAscii (trim s) = true.
Proof. intros H. apply trimEnd_ascii, trimStart_ascii, H. Qed.

Lemma append_ascii a b : isAscii (a ++ b) = isAscii a && isAscii b.
Proof.
  induction a as [|c a IH]; simpl; [reflexivity|].
  rewrite IH, andb_assoc. reflexivity.
Qed.

Lemma splitComma_ascii s :
  forall cur,
    isAscii cur = true -> isAscii s = true ->
    Forall (fun piece => isAscii piece = true) (splitComma cur s).
Proof.
  induction s as [|c s IH]; intros cur Hcur Hs; simpl.
  - constructor; [exact Hcur|constructor].
  - simpl in Hs. apply andb_true_iff in Hs. destruct Hs as [Hc Hs].
    destruct (Ascii.eqb c ","%char).
    + constructor; [exact Hcur|]. apply IH; [reflexivity|exact Hs].
    + apply IH; [|exact Hs]. rewrite append_ascii, Hcur. simpl. rewrite Hc. reflexivity.
Qed.

Lemma stripInner_ascii l :
  Forall (fun piece => isAscii piece = true) l ->
  forall first, Forall (fun piece => isAscii piece = true) (stripInner first l).
Proof.
  induction 1 as [|x l Hx Hl IH]; intros first; [constructor|].
  destruct l as [|y l'].
  - simpl. constructor; [|constructor].
    destruct first; [exact Hx|apply trimStart_ascii, Hx].
  - change (stripInner first (x :: y :: l'))
      with ((if first then trimEnd x else trim x) :: stripInner false (y :: l')).
    constructor; [|apply IH].
    destruct first; [apply trimEnd_ascii|apply trim_ascii]; exact Hx.
Qed.

(** X1. Of an ASCII string, where the model's [toLowerCase] and white
    space are JavaScript's, every entry [normalizeEnv] returns is an
    ASCII string again, is not empty, is in lower case and carries no
    white space at either end. *)
Theorem X1_normalizeEnv_entries_are_normal :
  forall input entry,
    isAscii input = true ->
    In entry (normalizeEnv (Some input)) ->
    isAscii entry = true
    /\ entry <> EmptyString /\ toLowerCase entry = entry /\ trim entry = entry.
Proof.
  intros input entry Hascii Hin. unfold normalizeEnv in Hin.
  destruct input as [|c s]; [contradiction|].
  apply filter_In in Hin. destruct Hin as [Hin Hne].
  apply in_map_iff in Hin. destruct Hin as (piece & E & Hpiece). subst entry.
  split; [|split; [|split]].
  - apply trim_ascii. rewrite toLowerCase_ascii.
    pose proof (stripInner_ascii (splitComma_ascii (String c s) EmptyString eq_refl Hascii) true)
      as Hall.
    rewrite Forall_forall in Hall. apply Hall, Hpiece.
  - intros E. rewrite E in Hne. discriminate.
  - rewrite toLowerCase_trim, toLowerCase_idempotent. reflexivity.
  - apply trim_idempotent.
Qed.

Lemma X1_witness :
  isAscii "warn" = true
  /\ "warn" <> EmptyString /\ toLowerCase "warn" = "warn" /\ trim "warn" = "warn".
Proof.
  apply (X1_normalizeEnv_entries_are_normal " WARN , trace,,debug " "warn" eq_refl).
  vm_compute. left. reflexivity.
Defined.

(** ** More on the strip decision *)

(** X3. The strip decision reads the label and the file name up to
    letter case and nothing else of the metadata: two calls whose
    labels and file names agree in lower case decide alike, whatever the
    other fields hold. *)
Theorem X3_shouldStrip_reads_lower_case_only :
  forall P name name' metadata metadata' opts,
    toLowerCase name = toLowerCase name' ->
    toLowerCase (filename metadata) = toLowerCase (filename metadata') ->
    shouldStrip P name metadata opts = shouldStrip P name' metadata' opts
    /\ shouldStrip P (toLowerCase name) metadata opts = shouldStrip P name metadata opts.
Proof.
  intros P name name' metadata metadata' opts Hn Hf.
  unfold shouldStrip, hasStripOverride, context.
  rewrite Hn, Hf, toLowerCase_idempotent. split; reflexivity.
Qed.

Lemma X3_witness :
  shouldStrip productionKeepWarn "WARN" sampleMetadata
    (optionsWith None (StripBoolean true))
  = shouldStrip productionKeepWarn "warn" blockMetadata
      (optionsWith None (StripBoolean true)).
Proof.
  apply (X3_shouldStrip_reads_lower_case_only productionKeepWarn "WARN" "warn"
           sampleMetadata blockMetadata (optionsWith None (StripBoolean true)));
    reflexivity.
Defined.

(** X4. [shouldStrip] throws exactly when the strip policy matches and
    [TRACE_CONTEXT] has an entry; in every other case it returns a
    boolean. *)
Theorem X4_shouldStrip_throws_iff_context_set :
  forall P name metadata opts,
    (exists e, shouldStrip P name metadata opts = Throw e)
    <-> (stripTruthy (strip opts) = true
         /\ stripIsTrue (strip opts) || stripIsEnv P (strip opts)
            || stripHasEnv P (strip opts) = true
         /\ PRESERVE_CONTEXTS P <> []).
Proof.
  intros P name metadata opts. unfold shouldStrip.
  destruct (stripTruthy (strip opts)); cbn [negb].
  2:{ split; [intros [e H]; discriminate H|intros (H & _); discriminate H]. }
  destruct (stripIsTrue (strip opts) || stripIsEnv P (strip opts)
            || stripHasEnv P (strip opts)).
  2:{ split; [intros [e H]; discriminate H|intros (_ & H & _); discriminate H]. }
  destruct (PRESERVE_CONTEXTS P) as [|entry rest] eqn:Hc.
  - rewrite (hasStripOverride_no_context P name metadata Hc). cbn [bind].
    split; [intros [e H]; discriminate H|intros (_ & _ & H); congruence].
  - rewrite (hasStripOverride_context_throws P name metadata); [|congruence].
    cbn [bind]. split; [intros _; repeat split; discriminate|intros _; eauto].
Qed.

(** X5. With no [TRACE_CONTEXT] entry, a statement is kept by an
    override exactly when some [TRACE_FILE] entry occurs in the
    lower-cased file name or the lower-cased label is a [TRACE_LEVEL]
    entry. *)
Theorem X5_override_by_file_or_level :
  forall P name metadata,
    PRESERVE_CONTEXTS P = [] ->
    (hasStripOverride P name metadata = Return true
     <-> (exists entry, In entry (PRESERVE_FILES P)
                        /\ indexOf (toLowerCase (filename metadata)) entry <> None)
         \/ In (toLowerCase name) (PRESERVE_LEVELS P))
    /\ (hasStripOverride P name metadata = Return true
        \/ hasStripOverride P name metadata = Return false).
Proof.
  intros P name metadata Hc. rewrite (hasStripOverride_no_context P name metadata Hc).
  split.
  - split.
    + intros H. injection H as H. apply orb_true_iff in H. destruct H as [H|H].
      * left. apply existsb_exists in H. destruct H as (entry & Hin & Hf).
        exists entry. split; [exact Hin|]. intros E. rewrite E in Hf. discriminate Hf.
      * right. apply existsb_exists in H. destruct H as (level & Hin & He).
        apply String.eqb_eq in He. subst level. exact Hin.
    + intros [(entry & Hin & Hf)|Hin]; f_equal; apply orb_true_iff.
      * left. apply existsb_exists. exists entry. split; [exact Hin|].
        destruct (indexOf (toLowerCase (filename metadata)) entry); [reflexivity|congruence].
      * right. apply existsb_exists. exists (toLowerCase name).
        split; [exact Hin|apply String.eqb_refl].
  - destruct (_ || _); auto.
Qed.

Lemma X5_witness :
  hasStripOverride (processWith (Some "production") None (Some "Login.js") None)
    "debug"
    {| indent := 0; parentPath := []; filename := "src/LOGIN.JS";
       filepath := "/work/src/LOGIN.JS"; hasStartMessage := false;
       isStartMessage := false; line := 1 |}
  = Return true.
Proof.
  apply (proj1 (X5_override_by_file_or_level
                  (processWith (Some "production") None (Some "Login.js") None) "debug"
                  {| indent := 0; parentPath := []; filename := "src/LOGIN.JS";
                     filepath := "/work/src/LOGIN.JS"; hasStartMessage := false;
                     isStartMessage := false; line := 1 |} eq_refl)).
  left. exists "login.js". split; [vm_compute; left; reflexivity|vm_compute; discriminate].
Defined.

(** ** Objects as association lists *)

Lemma get_set_same (V : Type) (o : list (string * V)) k v : get (set o k v) k = Some v.
Proof.
  induction o as [|[k' v'] o IH]; simpl.
  - rewrite String.eqb_refl. reflexivity.
  - destruct (String.eqb k' k) eqn:E; simpl; [rewrite String.eqb_refl|rewrite E]; auto.
Qed.

Lemma get_set_other (V : Type) (o : list (string * V)) k k' v :
  k <> k' -> get (set o k v) k' = get o k'.
Proof.
  intros Hne. induction o as [|[k0 v0] o IH]; simpl.
  - destruct (String.eqb k k') eqn:E; [apply String.eqb_eq in E; contradiction|reflexivity].
  - destruct (String.eqb k0 k) eqn:E; simpl.
    + apply String.eqb_eq in E. subst k0.
      destruct (String.eqb k k') eqn:E'; [apply String.eqb_eq in E'; contradiction|reflexivity].
    + destruct (String.eqb k0 k'); [reflexivity|exact IH].
Qed.

Lemma get_In (V : Type) (o : list (string * V)) k v :
  get o k = Some v -> In (k, v) o.
Proof.
  induction o as [|[k' v'] o IH]; simpl; [discriminate|].
  destruct (String.eqb k' k) eqn:E.
  - intros H. injection H as H. apply String.eqb_eq in E. subst. left. reflexivity.
  - intros H. right. apply IH, H.
Qed.

Lemma get_None (V : Type) (o : list (string * V)) k :
  get o k = None -> ~ In k (keys o).
Proof.
  induction o as [|[k' v'] o IH]; simpl; [auto|].
  destruct (String.eqb k' k) eqn:E; [discriminate|].
  intros H [H1|H1]; [subst; rewrite String.eqb_refl in E; discriminate|exact (IH H H1)].
Qed.

Lemma get_not_in (V : Type) (o : list (string * V)) k :
  ~ In k (keys o) -> get o k = None.
Proof.
  induction o as [|[k' v'] o IH]; simpl; [reflexivity|]. intros H.
  destruct (String.eqb k' k) eqn:E.
  - apply String.eqb_eq in E. exfalso. apply H. left. exact E.
  - apply IH. intros Hin. apply H. right. exact Hin.
Qed.

(** What a run of assignments leaves under a key none of them names. *)
Lemma get_assigned_other (V : Type) (l o : list (string * V)) k :
  ~ In k (keys l) ->
  get (fold_left (fun o kv => set o (fst kv) (snd kv)) l o) k = get o k.
Proof.
  revert o. induction l as [|[k' v'] l IH]; intros o H; simpl; [reflexivity|].
  rewrite IH.
  - apply get_set_other. intros E. apply H. left. exact E.
  - intros Hin. apply H. right. exact Hin.
Qed.

(** What a run of assignments leaves under a key all of whose
    assignments store [v]. *)
Lemma get_assigned (V : Type) (l o : list (string * V)) k v :
  In k (keys l) ->
  (forall kv, In kv l -> fst kv = k -> snd kv = v) ->
  get (fold_left (fun o kv => set o (fst kv) (snd kv)) l o) k = Some v.
Proof.
  revert o. induction l as [|[k' v'] l IH]; intros o Hin Hall; simpl; [contradiction|].
  destruct (in_dec string_dec k (keys l)) as [Hl|Hl].
  - apply IH; [exact Hl|]. intros kv Hkv. apply Hall. right. exact Hkv.
  - rewrite get_assigned_other by exact Hl.
    destruct Hin as [E|Hin]; [|contradiction]. simpl in E. subst k'.
    rewrite get_set_same. f_equal. apply (Hall (k, v')); [left|]; reflexivity.
Qed.

Lemma get_spread_fresh (V : Type) (l o : list (string * V)) k :
  NoDup (keys l) ->
  get (fold_left (fun o kv => set o (fst kv) (snd kv)) l o) k
  = match get l k with Some v => Some v | None => get o k end.
Proof.
  revert o. induction l as [|[k' v'] l IH]; intros o Hnd; simpl; [reflexivity|].
  inversion Hnd as [|? ? Hk Hnd']; subst.
  destruct (String.eqb k' k) eqn:E.
  - apply String.eqb_eq in E. subst k'.
    rewrite get_assigned_other by exact Hk. apply get_set_same.
  - rewrite IH by exact Hnd'. destruct (get l k); [reflexivity|].
    apply get_set_other. intros E'. subst. rewrite String.eqb_refl in E. discriminate.
Qed.

Lemma length_append (s t : string) :
  String.length (s ++ t) = String.length s + String.length t.
Proof. induction s as [|c s IH]; simpl; [reflexivity|]. rewrite IH. reflexivity. Qed.

Lemma append_cancel (s s' t : string) : (s ++ t = s' ++ t)%string -> s = s'.
Proof.
  revert s'. induction s as [|c s IH]; intros [|c' s'] H; simpl in H.
  - reflexivity.
  - apply (f_equal String.length) in H. simpl in H. rewrite length_append in H. lia.
  - apply (f_equal String.length) in H. simpl in H. rewrite length_append in H. lia.
  - injection H as Hc H. subst c'. f_equal. apply IH, H.
Qed.

(** ** More on the alias table and its synthesizers *)

(** X10. [addIdentifiers] gives every slot [k] of its argument a
    companion slot [kKey] that holds the identifier [k], and keeps a
    slot as it was unless its name is such a companion's. *)
Theorem X10_addIdentifiers_slots :
  forall nodes,
    (forall k, In k (keys nodes) ->
       get (addIdentifiers nodes) (k ++ "Key")%string = Some (Identifier k))
    /\ (NoDup (keys nodes) ->
        forall k, (forall k', In k' (keys nodes) -> k <> (k' ++ "Key")%string) ->
          get (addIdentifiers nodes) k = get nodes k).
Proof.
  intros nodes. unfold addIdentifiers, spread. split.
  - intros k Hin. apply get_assigned.
    + unfold keys in *. rewrite map_map. simpl.
      apply in_map_iff in Hin. destruct Hin as (kv & E & Hin). subst k.
      apply in_map_iff. exists kv. split; [reflexivity|exact Hin].
    + intros kv Hkv E. apply in_map_iff in Hkv. destruct Hkv as (kv' & E' & _).
      subst kv. simpl in *. apply append_cancel in E. subst k. reflexivity.
  - intros Hnd k Hk. rewrite get_assigned_other.
    + rewrite get_spread_fresh by exact Hnd. destruct (get nodes k); reflexivity.
    + unfold keys. rewrite map_map. simpl. intros Hin.
      apply in_map_iff in Hin. destruct Hin as (kv & E & Hin).
      apply (Hk (fst kv)); [apply in_map, Hin|]. symmetry. exact E.
Qed.

Lemma X10_witness :
  get (addIdentifiers (nrserLogNodes (Identifier "x") sampleMetadata true "debug")) "lineKey"
  = Some (Identifier "line").
Proof.
  apply (proj1 (X10_addIdentifiers_slots
                  (nrserLogNodes (Identifier "x") sampleMetadata true "debug")) "line").
  simpl. auto 10.
Defined.

(** X9. Whatever callee the parser reads from the log function spliced
    into the template, [nrserLog] returns and never throws: the result
    is the call of the substituted callee on the one argument the
    specification describes, the object of the seven literals, and the
    callee is as the parser read it when it names no slot of the
    template. *)
Theorem X9_nrserLog_argument_for_every_name :
  forall parse logFunction content metadata values level callee,
    parse (nrserLogText logFunction) = nrserLogTree callee ->
    exists callee',
      substitute (IdsObject (addIdentifiers (nrserLogNodes content metadata values level)))
        callee = Return callee'
      /\ nrserLog parse logFunction content metadata values level
         = Return (logCallTo callee' values level (contentEntries content) metadata)
      /\ (mentions slotNames callee = false -> callee' = callee).
Proof.
  intros parse logFunction content metadata values level callee Hp.
  destruct (substitute_returns
              (addIdentifiers (nrserLogNodes content metadata values level)) callee)
    as [callee' Hc].
  exists callee'. split; [exact Hc|]. split.
  - rewrite (@nrserLog_parsed parse logFunction content metadata values level callee Hp).
    rewrite Hc. reflexivity.
  - intros Hm. rewrite substitute_unchanged in Hc by (rewrite slotNames_keys; exact Hm).
    injection Hc as Hc. symmetry. exact Hc.
Qed.

Lemma X9_witness :
  exists callee',
    substitute
      (IdsObject (addIdentifiers (nrserLogNodes (Identifier "x") sampleMetadata true "debug")))
      (Other "MemberExpression" [Identifier "level"; Identifier "log"]) = Return callee'
    /\ nrserLog sampleParse "level.log" (Identifier "x") sampleMetadata true "debug"
       = Return (logCallTo callee' true "debug" (contentEntries (Identifier "x")) sampleMetadata)
    /\ (mentions slotNames (Other "MemberExpression" [Identifier "level"; Identifier "log"])
        = false ->
        callee' = Other "MemberExpression" [Identifier "level"; Identifier "log"]).
Proof.
  apply (@X9_nrserLog_argument_for_every_name sampleParse "level.log" (Identifier "x")
           sampleMetadata true "debug"
           (Other "MemberExpression" [Identifier "level"; Identifier "log"])).
  reflexivity.
Defined.

Lemma get_app_fresh (V : Type) (done rest : list (string * V)) k :
  ~ In k (keys done) -> get (done ++ rest) k = get rest k.
Proof.
  induction done as [|[k' v'] done IH]; simpl; intros H; [reflexivity|].
  destruct (String.eqb k' k) eqn:E.
  - apply String.eqb_eq in E. exfalso. apply H. left. exact E.
  - apply IH. intros Hin. apply H. right. exact Hin.
Qed.

Lemma set_app_fresh (V : Type) (done rest : list (string * V)) k v v' :
  ~ In k (keys done) -> set (done ++ (k, v) :: rest) k v' = done ++ (k, v') :: rest.
Proof.
  induction done as [|[k0 v0] done IH]; simpl; intros H.
  - rewrite String.eqb_refl. reflexivity.
  - destruct (String.eqb k0 k) eqn:E.
    + apply String.eqb_eq in E. exfalso. apply H. left. exact E.
    + f_equal. apply IH. intros Hin. apply H. right. exact Hin.
Qed.

Lemma keys_app (V : Type) (a b : list (string * V)) : keys (a ++ b) = keys a ++ keys b.
Proof. apply map_app. Qed.

(** The [forEach] of index.js:114-119 on a table without repeated
    keys: the entries done stay, the others are compiled in place. *)
Lemma compileKeys_in_place P todo :
  forall done sources,
    NoDup (keys (done ++ todo)) ->
    fold_left (compileKey P) (keys todo) (done ++ todo, sources)
    = (done ++ map (compileEntry P) todo, sources ++ sourcesOf todo).
Proof.
  induction todo as [|[k v] todo IH]; intros done sources Hnd.
  - simpl. rewrite !app_nil_r. reflexivity.
  - assert (Hk : ~ In k (keys done)).
    { rewrite keys_app in Hnd. simpl in Hnd. apply NoDup_remove_2 in Hnd.
      intros Hin. apply Hnd, in_or_app. left. exact Hin. }
    cbn [keys map fst fold_left]. unfold compileKey at 2.
    rewrite get_app_fresh by exact Hk. cbn [get]. rewrite String.eqb_refl.
    assert (Hdone : forall v', NoDup (keys ((done ++ [(k, v')]) ++ todo))).
    { intros v'. rewrite <- app_assoc. cbn [app].
      rewrite keys_app in *. exact Hnd. }
    assert (Hsame : (done ++ [(k, v)]) ++ todo = done ++ (k, v) :: todo)
      by (rewrite <- app_assoc; reflexivity).
    destruct v as [source|f].
    + destruct (nonEmpty source) eqn:Hs.
      * rewrite set_app_fresh by exact Hk.
        set (v' := AliasFunction (compiledAlias (expression (parse P) source))).
        replace (done ++ (k, v') :: todo) with ((done ++ [(k, v')]) ++ todo)
          by (rewrite <- app_assoc; reflexivity).
        fold (keys todo). rewrite (IH _ _ (Hdone v')).
        unfold compileEntry at 2, sourcesOf. cbn [snd fst flat_map]. rewrite Hs.
        rewrite <- !app_assoc. reflexivity.
      * rewrite <- Hsame. fold (keys todo). rewrite (IH _ _ (Hdone _)).
        unfold compileEntry at 2, sourcesOf. cbn [snd fst flat_map]. rewrite Hs.
        rewrite <- !app_assoc. reflexivity.
    + rewrite <- Hsame. fold (keys todo). rewrite (IH _ _ (Hdone _)).
      unfold compileEntry at 2, sourcesOf. cbn [snd fst flat_map].
      rewrite <- !app_assoc. reflexivity.
Qed.

(** [normalizeOpts] on a table of the user's without repeated keys. *)
Lemma normalizeOpts_user_table P opts table :
  normalized opts = false ->
  aliases opts = Some table ->
  NoDup (keys table) ->
  normalizeOpts P opts
  = ({| aliases := Some (map (compileEntry P) table); strip := strip opts;
        logFunction := logFunction opts; normalized := true |},
     sourcesOf table).
Proof.
  intros Hn Ha Hnd. unfold normalizeOpts. rewrite Hn, Ha.
  pose proof (compileKeys_in_place P table [] [] Hnd) as H.
  change ([] ++ table) with table in H. change ([] ++ sourcesOf table) with (sourcesOf table) in H.
  rewrite H. reflexivity.
Qed.

(** X7. On options not yet normalized whose alias table has no
    repeated key, [normalizeOpts] keeps the keys and their order,
    replaces each non-empty template source by the synthesizer compiled
    from it, leaves empty sources and functions as they are, and
    compiles the non-empty sources once each, in the order of the
    keys. *)
Theorem X7_normalizeOpts_compiles_in_place :
  forall P opts table,
    normalized opts = false ->
    aliases opts = Some table ->
    NoDup (keys table) ->
    normalizeOpts P opts
    = ({| aliases := Some (map (compileEntry P) table); strip := strip opts;
          logFunction := logFunction opts; normalized := true |},
       sourcesOf table)
    /\ keys (map (compileEntry P) table) = keys table.
Proof.
  intros P opts table Hn Ha Hnd. split.
  - apply normalizeOpts_user_table; assumption.
  - unfold keys. rewrite map_map. apply map_ext. intros [k v]. unfold compileEntry. simpl.
    destruct v as [source|f]; [destruct (nonEmpty source)|]; reflexivity.
Qed.

Lemma X7_witness :
  normalizeOpts development mixedOptions
  = ({| aliases :=
          Some [("debug",
                 AliasFunction (compiledAlias (expression sampleParse "LOG(content)")));
                ("off", AliasString "");
                ("info", AliasFunction (makeNrserLog sampleParse None "info"))];
        strip := StripUndefined; logFunction := None; normalized := true |},
     ["LOG(content)"]).
Proof.
  apply (X7_normalizeOpts_compiles_in_place development mixedOptions
           (table := [("debug", AliasString "LOG(content)"); ("off", AliasString "");
                      ("info", AliasFunction (makeNrserLog sampleParse None "info"))])
           eq_refl eq_refl).
  repeat constructor; simpl; intuition discriminate.
Defined.

(** X8. After [normalizeOpts] has normalized options, every own entry
    of the alias table that passes the guard of the visitor is a
    function, so that calling it cannot fail for want of one. *)
Theorem X8_normalized_aliases_are_callable :
  forall P opts table' name v,
    normalized opts = false ->
    (forall table, aliases opts = Some table -> NoDup (keys table)) ->
    aliases (fst (normalizeOpts P opts)) = Some table' ->
    get table' name = Some v ->
    truthy (Own v) = true ->
    exists f, v = AliasFunction f /\ callAlias (property table' name) = f.
Proof.
  intros P opts table' name v Hn Hnd Ha Hg Ht.
  assert (Hf : exists f, v = AliasFunction f).
  { destruct v as [source|f]; [|eauto]. exfalso.
    apply get_In in Hg. destruct (aliases opts) as [table|] eqn:E.
    - rewrite (normalizeOpts_user_table P opts Hn E (Hnd table eq_refl)) in Ha.
      simpl in Ha. injection Ha as Ha. subst table'.
      apply in_map_iff in Hg. destruct Hg as ([k w] & Hc & _).
      unfold compileEntry in Hc. simpl in Hc.
      destruct w as [s|g]; [destruct (nonEmpty s) eqn:Hs|]; injection Hc as _ Hc;
        try discriminate Hc.
      subst s. simpl in Ht. congruence.
    - unfold normalizeOpts in Ha. rewrite Hn, E in Ha. simpl in Ha.
      injection Ha as Ha. subst table'. simpl in Hg.
      repeat (destruct Hg as [Hg|Hg]; [discriminate Hg|]). contradiction. }
  destruct Hf as [f Hf]. subst v. exists f. split; [reflexivity|].
  unfold property. rewrite Hg. reflexivity.
Qed.

Lemma X8_witness :
  exists f,
    AliasFunction (compiledAlias (expression sampleParse "LOG(content)")) = AliasFunction f
    /\ callAlias (property
                    [("debug",
                      AliasFunction (compiledAlias (expression sampleParse "LOG(content)")));
                     ("off", AliasString "");
                     ("info", AliasFunction (makeNrserLog sampleParse None "info"))] "debug") = f.
Proof.
  apply (@X8_normalized_aliases_are_callable development mixedOptions _ "debug" _ eq_refl).
  - intros table E. injection E as E. subst table.
    repeat constructor; simpl; intuition discriminate.
  - reflexivity.
  - reflexivity.
  - reflexivity.
Defined.

(** ** More on the metadata collector *)

Lemma ancestorStep_spec w item :
  parts (ancestorStep w item) = List.rev (scopeName item) ++ parts w
  /\ found_parent (ancestorStep w item)
     = match found_parent w with
       | Some q => Some q
       | None => if isScope item then Some item else None
       end
  /\ depth (ancestorStep w item)
     = depth w + match found_parent w with
                 | Some _ => 0
                 | None => if isScope item then 0
                           else if isClassBody item || isBlockStatement item then 0 else 1
                 end.
Proof.
  unfold ancestorStep, scopeName, isScope, isClassMethod, isClassDeclaration, isFunction,
    isProgram, isClassBody, isBlockStatement, markParent.
  destruct (found_parent w) eqn:E; destruct (node item);
    repeat match goal with
           | |- context [match ?x with _ => _ end] =>
               match type of x with
               | Node => destruct x
               | option string => destruct x
               | string => destruct x
               | option NodePath => destruct x
               end
           end;
    simpl; rewrite ?E; repeat split; auto; lia.
Qed.

Lemma walk_spec l :
  forall w,
    parts (fold_left ancestorStep l w) = List.rev (flat_map scopeName l) ++ parts w
    /\ found_parent (fold_left ancestorStep l w)
       = match found_parent w with
         | Some q => Some q
         | None => find isScope l
         end
    /\ depth (fold_left ancestorStep l w)
       = depth w + match found_parent w with
                   | Some _ => 0
                   | None => indentOf l
                   end.
Proof.
  induction l as [|item l IH]; intros w.
  - simpl. repeat split; [destruct (found_parent w); reflexivity|].
    destruct (found_parent w); lia.
  - cbn [fold_left flat_map find indentOf].
    destruct (IH (ancestorStep w item)) as (Hp & Hf & Hd).
    destruct (ancestorStep_spec w item) as (Sp & Sf & Sd).
    rewrite Hp, Hf, Hd, Sp, Sf, Sd. rewrite List.rev_app_distr, <- app_assoc.
    destruct (found_parent w); [repeat split; lia|].
    destruct (isScope item); repeat split; lia.
Qed.

Lemma collectMetadata_fields P path opts m :
  collectMetadata P path opts = Return m ->
  parentPath m = List.rev (flat_map scopeName (tl (getAncestry path)))
  /\ indent m = indentOf (tl (getAncestry path))
  /\ filename m = hubFilename path
  /\ filepath m = resolve P (cwd P) (hubFilename path).
Proof.
  unfold collectMetadata. intros H.
  match type of H with bind ?r _ = _ => destruct r as [flags|e]; [|discriminate H] end.
  cbn [bind] in H. injection H as H. subst m. cbn.
  destruct (walk_spec (tl (getAncestry path))
              {| parts := []; found_parent := None; depth := 0 |}) as (Hp & _ & Hd).
  rewrite Hp, Hd. cbn. rewrite app_nil_r. auto.
Qed.

(** X12. [parentPath] lists the names of the class declarations, the
    class methods and the functions that enclose the label, the
    outermost first, whatever lies between them; a class expression
    adds no name. *)
Theorem X12_parentPath_is_the_enclosing_scopes :
  forall P path opts metadata,
    collectMetadata P path opts = Return metadata ->
    parentPath metadata = List.rev (flat_map scopeName (tl (getAncestry path))).
Proof.
  intros P path opts metadata H. apply (collectMetadata_fields P path opts H).
Qed.

Lemma X12_witness :
  parentPath {| indent := 1; parentPath := ["Dude"; "doSomethingElse"];
                filename := "src/index.js"; filepath := "/work/src/index.js";
                hasStartMessage := false; isStartMessage := false; line := 4 |}
  = List.rev (flat_map scopeName (tl (getAncestry dudeLabel))).
Proof.
  apply (X12_parentPath_is_the_enclosing_scopes development dudeLabel
           (fst (normalizeOpts development (optionsWith None StripUndefined)))).
  reflexivity.
Defined.

(** X13. [indent] counts the ancestors between the label and its
    nearest enclosing method, class, function or program, blocks and
    class bodies not counted; what lies beyond that scope does not
    count. *)
Theorem X13_indent_counts_up_to_the_scope :
  forall P path opts metadata,
    collectMetadata P path opts = Return metadata ->
    indent metadata = indentOf (tl (getAncestry path)).
Proof.
  intros P path opts metadata H. apply (collectMetadata_fields P path opts H).
Qed.

Lemma X13_witness :
  indent {| indent := 1; parentPath := ["Dude"; "doSomethingElse"];
            filename := "src/index.js"; filepath := "/work/src/index.js";
            hasStartMessage := false; isStartMessage := false; line := 4 |}
  = indentOf (tl (getAncestry dudeLabel)).
Proof.
  apply (X13_indent_counts_up_to_the_scope development dudeLabel
           (fst (normalizeOpts development (optionsWith None StripUndefined)))).
  reflexivity.
Defined.

Lemma startMessage_flags path opts children :
  forall flags,
    startMessage path opts children = Return flags ->
    snd flags = true -> fst flags = true.
Proof.
  induction children as [|child rest IH]; intros flags H Hs; simpl in H.
  - injection H as H. subst flags. discriminate Hs.
  - destruct (node child);
      try (injection H as H; subst flags; discriminate Hs).
    + destruct handled; injection H as H; subst flags; discriminate Hs.
    + destruct (readAlias opts label) as [p|e]; cbn [bind] in H; [|discriminate H].
      destruct (truthy p); [injection H as H; subst flags; reflexivity|].
      exact (IH _ H Hs).
Qed.

(** X11. The metadata never says that the label is the start message
    of a scope that has none: [isStartMessage] implies
    [hasStartMessage]. *)
Theorem X11_start_message_flags_agree :
  forall P path opts metadata,
    collectMetadata P path opts = Return metadata ->
    isStartMessage metadata = true -> hasStartMessage metadata = true.
Proof.
  intros P path opts metadata H. unfold collectMetadata in H.
  match type of H with bind ?r _ = _ => destruct r as [flags|e] eqn:E; [|discriminate H] end.
  cbn [bind] in H. injection H as H. subst metadata. cbn.
  destruct (found_parent _) as [q|].
  - destruct (isProgram q); [injection E as E; subst flags; discriminate|].
    destruct (bodyOfBody q) as [children|e]; cbn [bind] in E; [|discriminate E].
    apply (startMessage_flags _ _ _ E).
  - injection E as E. subst flags. discriminate.
Qed.

Lemma X11_witness :
  hasStartMessage sampleMetadata = true.
Proof.
  apply (X11_start_message_flags_agree development
           (statementPath "a.js" (doSomething (Identifier "x")) 0)
           (fst (normalizeOpts development (optionsWith None StripUndefined)))).
  - reflexivity.
  - reflexivity.
Defined.

Lemma scopeName_none item :
  isClassMethod item = false -> isClassDeclaration item = false -> isFunction item = false ->
  scopeName item = [].
Proof.
  unfold isClassMethod, isClassDeclaration, isFunction, scopeName.
  destruct (node item); intros; try discriminate; reflexivity.
Qed.

(** X14. For a label that no class, method or function encloses,
    [collectMetadata] returns, with an empty [parentPath] and both
    start-message flags [false]. *)
Theorem X14_label_outside_every_scope :
  forall P path opts,
    Forall (fun item => isClassMethod item = false /\ isClassDeclaration item = false
                        /\ isFunction item = false) (tl (getAncestry path)) ->
    exists metadata,
      collectMetadata P path opts = Return metadata
      /\ parentPath metadata = []
      /\ hasStartMessage metadata = false /\ isStartMessage metadata = false.
Proof.
  intros P path opts Hall.
  assert (Hflags : exists metadata, collectMetadata P path opts = Return metadata
                     /\ hasStartMessage metadata = false /\ isStartMessage metadata = false).
  { unfold collectMetadata.
    destruct (walk_spec (tl (getAncestry path))
                {| parts := []; found_parent := None; depth := 0 |}) as (_ & Hf & _).
    cbn [found_parent] in Hf. rewrite Hf.
    destruct (find isScope (tl (getAncestry path))) as [q|] eqn:E.
    - apply find_some in E. destruct E as [Hin Hq].
      rewrite Forall_forall in Hall. destruct (Hall q Hin) as (H1 & H2 & H3).
      unfold isScope in Hq. rewrite H1, H2, H3 in Hq. cbn [orb] in Hq. rewrite Hq.
      cbn [bind]. eexists. repeat split.
    - cbn [bind]. eexists. repeat split. }
  destruct Hflags as (metadata & H & Hh & Hi). exists metadata.
  split; [exact H|]. split; [|auto].
  rewrite (proj1 (collectMetadata_fields P path opts H)).
  assert (Hn : flat_map scopeName (tl (getAncestry path)) = []).
  { induction Hall as [|item l (H1 & H2 & H3) _ IH]; [reflexivity|].
    cbn [flat_map]. rewrite (scopeName_none item H1 H2 H3), IH. reflexivity. }
  rewrite Hn. reflexivity.
Qed.

Lemma X14_witness :
  exists metadata,
    collectMetadata development (topLevelPath "a.js" [toStringLabel] 0)
      (optionsWith None StripUndefined) = Return metadata
    /\ parentPath metadata = []
    /\ hasStartMessage metadata = false /\ isStartMessage metadata = false.
Proof.
  apply (X14_label_outside_every_scope development (topLevelPath "a.js" [toStringLabel] 0)
           (optionsWith None StripUndefined)).
  repeat constructor.
Defined.

(** The scan for a start message passes over labeled statements whose
    label the guard rejects. *)
Lemma startMessage_skips path opts table bpath pre rest :
  aliases opts = Some table ->
  Forall (isPlainLabel table) pre ->
  forall j,
    startMessage path opts (indexed bpath j (pre ++ rest))
    = startMessage path opts (indexed bpath (j + length pre) rest).
Proof.
  intros Ha Hpre. induction Hpre as [|s pre (label & l & b & Es & Hs) _ IH]; intros j.
  - simpl. rewrite Nat.add_0_r. reflexivity.
  - subst s. rewrite <- app_comm_cons. cbn [indexed startMessage node length].
    unfold readAlias. rewrite Ha. cbn [bind]. rewrite Hs.
    rewrite IH. f_equal. f_equal. lia.
Qed.

Lemma sameNode_sibling n n' i j p file :
  sameNode (mkNodePath n (Index "body" i) (Some p) file)
           (mkNodePath n' (Index "body" j) (Some p) file)
  = Nat.eqb i j.
Proof.
  unfold sameNode. cbn [getAncestry map key keysEqb keyEqb].
  rewrite keysEqb_refl, String.eqb_refl, andb_true_r. reflexivity.
Qed.

(** X15. In a function body that begins with labeled statements the
    guard rejects and then has a labeled statement the guard accepts,
    every statement is collected with [hasStartMessage = true], and
    [isStartMessage] is [true] for that accepted statement alone. *)
Theorem X15_first_alias_label_is_the_start_message :
  forall P opts table t id fl k outer file pre label l body post n i,
    aliases opts = Some table ->
    Forall (isPlainLabel table) pre ->
    truthy (property table label) = true ->
    let statements := pre ++ LabeledStatement label l body :: post in
    let fpath := mkNodePath (FunctionNode t id fl (BlockStatement statements)) k outer file in
    let bpath := mkNodePath (BlockStatement statements) (Field "body") (Some fpath) file in
    exists metadata,
      collectMetadata P (mkNodePath n (Index "body" i) (Some bpath) file) opts
        = Return metadata
      /\ hasStartMessage metadata = true
      /\ isStartMessage metadata = Nat.eqb i (length pre).
Proof.
  intros P opts table t id fl k outer file pre label l body post n i Ha Hpre Ht
         statements fpath bpath.
  set (path := mkNodePath n (Index "body" i) (Some bpath) file).
  assert (Hscan : startMessage path opts (indexed bpath 0 statements)
                  = Return (true, Nat.eqb (length pre) i)).
  { unfold statements. rewrite (@startMessage_skips path opts table bpath pre _ Ha Hpre 0).
    cbn [indexed startMessage node]. unfold readAlias. rewrite Ha. cbn [bind].
    rewrite Ht. unfold path. rewrite sameNode_sibling. reflexivity. }
  destruct (collectMetadata_in_function P opts t id fl k outer file statements n i Hscan)
    as (metadata & Hm & Hh & Hi).
  exists metadata. split; [exact Hm|]. split; [exact Hh|].
  rewrite Hi. apply Nat.eqb_sym.
Qed.

Lemma X15_witness :
  exists metadata,
    collectMetadata development (statementPath "a.js" labelsAfterPlain 2)
      (fst (normalizeOpts development (optionsWith None StripUndefined))) = Return metadata
    /\ hasStartMessage metadata = true
    /\ isStartMessage metadata = false.
Proof.
  apply (@X15_first_alias_label_is_the_start_message development
           (fst (normalizeOpts development (optionsWith None StripUndefined)))
           (defaultAliases sampleParse) FunctionDeclaration (Some "h") 1 (Index "body" 0)
           (Some (mkNodePath (Program [labelsAfterPlain]) (Field "program") None "a.js"))
           "a.js"
           [LabeledStatement "outer" 2 (ExpressionStatement false (Identifier "a"))]
           "warn" 3 (ExpressionStatement false (Identifier "b"))
           [LabeledStatement "info" 4 (ExpressionStatement false (Identifier "c"))]
           (LabeledStatement "info" 4 (ExpressionStatement false (Identifier "c"))) 2
           eq_refl).
  - constructor; [|constructor]. exists "outer", 2, (ExpressionStatement false (Identifier "a")).
    split; reflexivity.
  - reflexivity.
Defined.

(** X16. In a function body that, after labeled statements the guard
    rejects, goes on with an ordinary statement or ends, no statement
    has a start message; and where it goes on with a handled statement,
    every statement has [hasStartMessage = true] and none is the start
    message. *)
Theorem X16_scope_without_start_message :
  forall P opts table t id fl k outer file pre rest n i,
    aliases opts = Some table ->
    Forall (isPlainLabel table) pre ->
    let statements := pre ++ rest in
    let fpath := mkNodePath (FunctionNode t id fl (BlockStatement statements)) k outer file in
    let bpath := mkNodePath (BlockStatement statements) (Field "body") (Some fpath) file in
    ((rest = [] \/ exists s rest', rest = s :: rest' /\ isOrdinary s) ->
     exists metadata,
       collectMetadata P (mkNodePath n (Index "body" i) (Some bpath) file) opts
         = Return metadata
       /\ hasStartMessage metadata = false /\ isStartMessage metadata = false)
    /\ ((exists e rest', rest = ExpressionStatement true e :: rest') ->
        exists metadata,
          collectMetadata P (mkNodePath n (Index "body" i) (Some bpath) file) opts
            = Return metadata
          /\ hasStartMessage metadata = true /\ isStartMessage metadata = false).
Proof.
  intros P opts table t id fl k outer file pre rest n i Ha Hpre statements fpath bpath.
  set (path := mkNodePath n (Index "body" i) (Some bpath) file).
  pose proof (@startMessage_skips path opts table bpath pre rest Ha Hpre 0) as Hskip.
  fold statements in Hskip. split.
  - intros Hrest.
    assert (Hscan : startMessage path opts (indexed bpath 0 statements)
                    = Return (false, false)).
    { rewrite Hskip. destruct Hrest as [E|(s & rest' & E & Hs)]; subst rest; [reflexivity|].
      cbn [indexed startMessage node].
      destruct s; try reflexivity; try contradiction.
      destruct handled; [contradiction|reflexivity]. }
    destruct (collectMetadata_in_function P opts t id fl k outer file statements n i Hscan)
      as (metadata & Hm & Hh & Hi).
    exists metadata. auto.
  - intros (e & rest' & E).
    assert (Hscan : startMessage path opts (indexed bpath 0 statements)
                    = Return (true, false)).
    { rewrite Hskip. subst rest. reflexivity. }
    destruct (collectMetadata_in_function P opts t id fl k outer file statements n i Hscan)
      as (metadata & Hm & Hh & Hi).
    exists metadata. auto.
Qed.

Lemma X16_witness :
  exists metadata,
    collectMetadata development (statementPath "a.js" labelAfterCode 1)
      (fst (normalizeOpts development (optionsWith None StripUndefined))) = Return metadata
    /\ hasStartMessage metadata = false /\ isStartMessage metadata = false.
Proof.
  apply (proj1 (@X16_scope_without_start_message development
                  (fst (normalizeOpts development (optionsWith None StripUndefined)))
                  (defaultAliases sampleParse) FunctionDeclaration (Some "h") 1 (Index "body" 0)
                  (Some (mkNodePath (Program [labelAfterCode]) (Field "program") None "a.js"))
                  "a.js" []
                  [ExpressionStatement false (CallExpression (Identifier "work") []);
                   LabeledStatement "debug" 3 (ExpressionStatement false (Identifier "x"))]
                  (LabeledStatement "debug" 3 (ExpressionStatement false (Identifier "x"))) 1
                  eq_refl (Forall_nil _))).
  right. eexists. eexists. split; [reflexivity|exact I].
Defined.

Lemma startMessage_returns path opts table children :
  aliases opts = Some table ->
  exists flags, startMessage path opts children = Return flags.
Proof.
  intros Ha. induction children as [|child rest IH]; simpl; [eauto|].
  destruct (node child); eauto.
  - destruct handled; eauto.
  - unfold readAlias. rewrite Ha. cbn [bind]. destruct (truthy _); eauto.
Qed.

(** X17. [collectMetadata] returns whenever the options hold an alias
    table and the nearest method, class or function around the label,
    if there is one, keeps a list of statements or members; it fails
    only where that scope's body cannot be iterated. *)
Theorem X17_collectMetadata_returns :
  forall P path opts table,
    aliases opts = Some table ->
    (forall scope, find isScope (tl (getAncestry path)) = Some scope ->
                   isProgram scope = false ->
                   exists children, bodyOfBody scope = Return children) ->
    exists metadata, collectMetadata P path opts = Return metadata.
Proof.
  intros P path opts table Ha Hscope. unfold collectMetadata.
  destruct (walk_spec (tl (getAncestry path))
              {| parts := []; found_parent := None; depth := 0 |}) as (_ & Hf & _).
  cbn [found_parent] in Hf. rewrite Hf.
  destruct (find isScope (tl (getAncestry path))) as [scope|] eqn:E.
  - destruct (isProgram scope) eqn:Hp; [cbn [bind]; eauto|].
    destruct (Hscope scope eq_refl Hp) as [children Hc]. rewrite Hc. cbn [bind].
    destruct (@startMessage_returns path opts table children Ha) as [flags Hs].
    rewrite Hs. cbn [bind]. eauto.
  - cbn [bind]. eauto.
Qed.

Lemma X17_witness :
  exists metadata,
    collectMetadata development dudeLabel
      (fst (normalizeOpts development (optionsWith None StripUndefined))) = Return metadata.
Proof.
  apply (@X17_collectMetadata_returns development dudeLabel
           (fst (normalizeOpts development (optionsWith None StripUndefined)))
           (defaultAliases sampleParse) eq_refl).
  intros scope E _. vm_compute in E. injection E as E. subst scope.
  eexists. reflexivity.
Defined.

(** ** More on the visitor *)

(** X18. Whenever the visitor returns, the options it leaves are the
    normalized ones, and they are a fixed point: normalizing them again
    changes nothing and compiles nothing, and a later visit of any
    statement under them leaves them as they are. *)
Theorem X18_visitor_leaves_normalized_options :
  forall P path opts opts' action,
    LabeledStatement_visitor P path opts = Return (opts', action) ->
    opts' = fst (normalizeOpts P opts)
    /\ normalized opts' = true
    /\ normalizeOpts P opts' = (opts', [])
    /\ forall path' opts'' action',
         LabeledStatement_visitor P path' opts' = Return (opts'', action') -> opts'' = opts'.
Proof.
  assert (Hfirst : forall P path opts opts' action,
            LabeledStatement_visitor P path opts = Return (opts', action) ->
            opts' = fst (normalizeOpts P opts)).
  { intros P path opts opts' action H. unfold LabeledStatement_visitor in H.
    destruct (node path); try discriminate H. cbv zeta in H.
    destruct (readAlias _ label) as [alias|]; cbn [bind] in H; [|discriminate H].
    destruct (negb (truthy alias)); [injection H as H _; auto|].
    destruct (collectMetadata _ _ _) as [metadata|]; cbn [bind] in H; [|discriminate H].
    destruct (shouldStrip _ _ _ _) as [[|]|]; cbn [bind] in H;
      [injection H as H _; auto| |discriminate H].
    destruct (traverse _ _ _) as [body'|]; cbn [bind] in H; [|discriminate H].
    destruct body'; injection H as H _; auto. }
  intros P path opts opts' action H.
  pose proof (Hfirst P path opts opts' action H) as E.
  assert (Hn : normalized opts' = true) by (subst opts'; apply normalizeOpts_normalized).
  assert (Hfix : normalizeOpts P opts' = (opts', []))
    by (unfold normalizeOpts; rewrite Hn; reflexivity).
  split; [exact E|]. split; [exact Hn|]. split; [exact Hfix|].
  intros path' opts'' action' H'. rewrite (Hfirst P path' opts' opts'' action' H'), Hfix.
  reflexivity.
Qed.

Lemma X18_witness :
  normalizeOpts development (fst (normalizeOpts development (optionsWith None StripUndefined)))
  = (fst (normalizeOpts development (optionsWith None StripUndefined)), []).
Proof.
  apply (X18_visitor_leaves_normalized_options development
           (statementPath "a.js" (doSomething (Identifier "x")) 0)
           (optionsWith None StripUndefined)
           (action := ReplaceWith
                        (ExpressionStatement true
                           (logCall "METALOG" true "debug" [Identifier "x"] sampleMetadata)))).
  reflexivity.
Defined.

(** X19. The visitor leaves a labeled statement untouched exactly when
    the alias table has nothing for its label, own or inherited, or
    has the empty string for it; in every other case it removes the
    statement, replaces it or throws. *)
Theorem X19_untouched_iff_guard_rejects :
  forall P path opts label l body,
    node path = LabeledStatement label l body ->
    (LabeledStatement_visitor P path opts = Return (fst (normalizeOpts P opts), Untouched)
     <-> exists table,
           aliases (fst (normalizeOpts P opts)) = Some table
           /\ ((get table label = None /\ inPrototype label = false)
               \/ get table label = Some (AliasString EmptyString))).
Proof.
  intros P path opts label l body Hn.
  rewrite (visitor_unfold P path opts Hn). cbv zeta.
  unfold readAlias, property.
  destruct (aliases (fst (normalizeOpts P opts))) as [table|].
  2:{ cbn [bind]. split; [discriminate|]. intros (table & E & _). discriminate E. }
  cbn [bind]. split.
  - intros H. exists table. split; [reflexivity|].
    destruct (get table label) as [[source|f]|].
    + destruct source as [|c s]; [right; reflexivity|]. exfalso.
      cbn [truthy nonEmpty negb] in H.
      destruct (collectMetadata _ _ _) as [m|]; cbn [bind] in H; [|discriminate H].
      destruct (shouldStrip _ _ _ _) as [[|]|]; cbn [bind] in H; try discriminate H.
      destruct (traverse _ _ _) as [b|]; cbn [bind] in H; [|discriminate H].
      destruct b; discriminate H.
    + exfalso. cbn [truthy negb] in H.
      destruct (collectMetadata _ _ _) as [m|]; cbn [bind] in H; [|discriminate H].
      destruct (shouldStrip _ _ _ _) as [[|]|]; cbn [bind] in H; try discriminate H.
      destruct (traverse _ _ _) as [b|]; cbn [bind] in H; [|discriminate H].
      destruct b; discriminate H.
    + destruct (inPrototype label) eqn:Hp; [|left; auto]. exfalso.
      cbn [truthy negb] in H.
      destruct (collectMetadata _ _ _) as [m|]; cbn [bind] in H; [|discriminate H].
      destruct (shouldStrip _ _ _ _) as [[|]|]; cbn [bind] in H; try discriminate H.
      destruct (traverse _ _ _) as [b|]; cbn [bind] in H; [|discriminate H].
      destruct b; discriminate H.
  - intros (table' & E & Hc). injection E as E. subst table'.
    destruct Hc as [(Hg & Hp)|Hg]; rewrite Hg; [rewrite Hp|]; reflexivity.
Qed.

Lemma X19_witness :
  LabeledStatement_visitor development
    (topLevelPath "a.js"
       [LabeledStatement "outer" 1 (ExpressionStatement false (Identifier "x"))] 0)
    (optionsWith None StripUndefined)
  = Return (fst (normalizeOpts development (optionsWith None StripUndefined)), Untouched).
Proof.
  apply (proj2 (@X19_untouched_iff_guard_rejects development
                  (topLevelPath "a.js"
                     [LabeledStatement "outer" 1 (ExpressionStatement false (Identifier "x"))] 0)
                  (optionsWith None StripUndefined) "outer" 1
                  (ExpressionStatement false (Identifier "x")) eq_refl)).
  exists (defaultAliases sampleParse). split; [reflexivity|]. left. split; reflexivity.
Defined.

(** ** More on the traversal below the label *)

Section TraverseMarks.
Variable error : Error.
Variable synthesize : Node -> Result Node.

Ltac run H :=
  repeat match type of H with
         | bind ?r _ = Return _ =>
             let E := fresh "E" in destruct r eqn:E; cbn [bind] in H; [|discriminate H]
         | (if ?b then _ else _) = Return _ => destruct b; [discriminate H|]
         end;
  try discriminate H; injection H as H; subst.

Lemma mapM_marked (l : list Node) :
  Forall (fun n => forall n', traverse error synthesize n = Return n' -> marked n' = true) l ->
  forall l', mapM (traverse error synthesize) l = Return l' -> forallb marked l' = true.
Proof.
  induction 1 as [|x l Hx _ IH]; intros l' H; simpl in H.
  - injection H as H. subst l'. reflexivity.
  - run H. simpl. rewrite (Hx _ eq_refl), (IH _ eq_refl). reflexivity.
Qed.

Lemma traverse_marks (n : Node) :
  forall n', traverse error synthesize n = Return n' -> marked n' = true.
Proof.
  induction n using Node_induction; intros n' Hn; cbn [traverse] in Hn;
    try (run Hn; reflexivity);
    try (run Hn; cbn [marked]; eapply mapM_marked; eassumption).
  - (* ObjectProperty *)
    run Hn. cbn [marked]. rewrite (IHn1 _ eq_refl), (IHn2 _ eq_refl). reflexivity.
  - (* CallExpression *)
    run Hn. cbn [marked]. rewrite (IHn _ eq_refl), (mapM_marked H E0). reflexivity.
  - (* ExpressionStatement *)
    destruct h; run Hn; reflexivity.
  - (* LabeledStatement *)
    run Hn. cbn [marked]. exact (IHn _ eq_refl).
  - (* ClassDeclaration *)
    run Hn. cbn [marked]. exact (IHn _ eq_refl).
Qed.

Lemma mapM_handled (l : list Node) :
  Forall (fun n => allHandled n = true ->
                   traverse error synthesize n
                   = if containsSideEffect n then Throw error else Return n) l ->
  forallb allHandled l = true ->
  mapM (traverse error synthesize) l
  = if existsb containsSideEffect l then Throw error else Return l.
Proof.
  induction 1 as [|x l Hx _ IH]; intros Hall; simpl; [reflexivity|].
  simpl in Hall. apply andb_true_iff in Hall. destruct Hall as [H1 H2].
  rewrite (Hx H1). destruct (containsSideEffect x); simpl; [reflexivity|].
  rewrite (IH H2). destruct (existsb containsSideEffect l); reflexivity.
Qed.

Lemma traverse_handled (n : Node) :
  allHandled n = true ->
  traverse error synthesize n = if containsSideEffect n then Throw error else Return n.
Proof.
  induction n using Node_induction; intros Hall; cbn [traverse containsSideEffect];
    try reflexivity;
    try (cbn [allHandled] in Hall; rewrite (mapM_handled H Hall);
         destruct (existsb containsSideEffect l); reflexivity).
  - (* ObjectProperty *)
    cbn [allHandled] in Hall. apply andb_true_iff in Hall. destruct Hall as [H1 H2].
    rewrite (IHn1 H1). destruct (containsSideEffect n1); simpl; [reflexivity|].
    rewrite (IHn2 H2). destruct (containsSideEffect n2); reflexivity.
  - (* CallExpression *)
    cbn [allHandled] in Hall. apply andb_true_iff in Hall. destruct Hall as [H1 H2].
    rewrite (IHn H1). destruct (containsSideEffect n); simpl; [reflexivity|].
    rewrite (mapM_handled H H2). destruct (existsb containsSideEffect l); reflexivity.
  - (* ExpressionStatement *)
    cbn [allHandled] in Hall. apply andb_true_iff in Hall. destruct Hall as [H1 H2].
    subst h. rewrite (IHn H2). destruct (containsSideEffect n); reflexivity.
  - (* LabeledStatement *)
    cbn [allHandled] in Hall. rewrite (IHn Hall).
    destruct (containsSideEffect n); reflexivity.
  - (* ClassDeclaration *)
    cbn [allHandled] in Hall. rewrite (IHn Hall).
    destruct (containsSideEffect n); reflexivity.
Qed.
End TraverseMarks.

(** X20. In the body the traversal returns, every expression statement
    among the statements carries the handled mark, whatever the
    synthesizer is. *)
Theorem X20_rewritten_statements_are_marked :
  forall error synthesize body body',
    traverse error synthesize body = Return body' -> marked body' = true.
Proof.
  intros error synthesize body body' H. exact (traverse_marks _ _ _ H).
Qed.

Lemma X20_witness :
  marked (BlockStatement
            [ExpressionStatement true (CallExpression (Identifier "mark") []);
             Other "IfStatement"
               [Identifier "c";
                ExpressionStatement true (CallExpression (Identifier "mark") [])]])
  = true.
Proof.
  apply (X20_rewritten_statements_are_marked (TypeError "unused")
           (fun _ => Return (CallExpression (Identifier "mark") []))
           (BlockStatement
              [ExpressionStatement false (Identifier "a");
               Other "IfStatement" [Identifier "c"; ExpressionStatement false (Identifier "b")]])).
  reflexivity.
Defined.

(** X21. A tree in which every expression statement is already handled
    is never handed to the synthesizer: the traversal returns it as it
    is, or throws the side-effect error if it holds a side effect. *)
Theorem X21_handled_statements_are_left_alone :
  forall error synthesize n,
    allHandled n = true ->
    traverse error synthesize n = if containsSideEffect n then Throw error else Return n.
Proof.
  intros error synthesize n H. apply traverse_handled, H.
Qed.

Lemma X21_witness :
  traverse (TypeError "unused") (fun _ => Throw (TypeError "called"))
    (BlockStatement [ExpressionStatement true (CallExpression (Identifier "mark") [])])
  = Return (BlockStatement [ExpressionStatement true (CallExpression (Identifier "mark") [])]).
Proof.
  apply (X21_handled_statements_are_left_alone (TypeError "unused")
           (fun _ => Throw (TypeError "called"))
           (BlockStatement [ExpressionStatement true (CallExpression (Identifier "mark") [])])).
  reflexivity.
Defined.

Lemma normalizeOpts_strip P opts : strip (fst (normalizeOpts P opts)) = strip opts.
Proof.
  unfold normalizeOpts. destruct (normalized opts); [reflexivity|].
  destruct (aliases opts) as [table|]; [|reflexivity].
  destruct (fold_left (compileKey P) (keys table) (table, [])). reflexivity.
Qed.

(** X22. The visitor removes a labeled statement only under a truthy
    [strip] option that is [true], names the current environment or
    maps it to [true], and only when no override speaks for the
    statement: [TRACE_CONTEXT] has no entry and the lower-cased label is
    no [TRACE_LEVEL] entry. *)
Theorem X22_removed_only_under_matching_policy :
  forall P path opts opts' label l body,
    node path = LabeledStatement label l body ->
    LabeledStatement_visitor P path opts = Return (opts', Remove) ->
    stripTruthy (strip opts) = true
    /\ stripIsTrue (strip opts) || stripIsEnv P (strip opts) || stripHasEnv P (strip opts) = true
    /\ PRESERVE_CONTEXTS P = []
    /\ ~ In (toLowerCase label) (PRESERVE_LEVELS P).
Proof.
  intros P path opts opts' label l body Hn H.
  rewrite (visitor_unfold P path opts Hn) in H. cbv zeta in H.
  destruct (readAlias _ label) as [alias|]; cbn [bind] in H; [|discriminate H].
  destruct (negb (truthy alias)); [discriminate H|].
  destruct (collectMetadata _ _ _) as [metadata|]; cbn [bind] in H; [|discriminate H].
  destruct (shouldStrip _ _ _ _) as [[|]|] eqn:Hs; cbn [bind] in H; [| |discriminate H].
  2:{ destruct (traverse _ _ _) as [body'|]; cbn [bind] in H; [|discriminate H].
      destruct body'; discriminate H. }
  clear H. unfold shouldStrip in Hs. rewrite normalizeOpts_strip in Hs.
  destruct (stripTruthy (strip opts)); cbn [negb] in Hs; [|discriminate Hs].
  destruct (stripIsTrue (strip opts) || stripIsEnv P (strip opts)
            || stripHasEnv P (strip opts)); [|discriminate Hs].
  split; [reflexivity|]. split; [reflexivity|].
  destruct (PRESERVE_CONTEXTS P) as [|entry rest] eqn:Hc.
  - split; [reflexivity|].
    rewrite (hasStripOverride_no_context P label metadata Hc) in Hs. cbn [bind] in Hs.
    injection Hs as Hs. apply negb_true_iff, orb_false_iff in Hs. destruct Hs as [_ Hl].
    intros Hin.
    assert (Ht : existsb (fun level => String.eqb level (toLowerCase label))
                   (PRESERVE_LEVELS P) = true).
    { apply existsb_exists. exists (toLowerCase label).
      split; [exact Hin|apply String.eqb_refl]. }
    congruence.
  - rewrite (hasStripOverride_context_throws P label metadata) in Hs; [|congruence].
    discriminate Hs.
Qed.

Lemma X22_witness :
  stripTruthy (StripBoolean true) = true
  /\ stripIsTrue (StripBoolean true) || stripIsEnv development (StripBoolean true)
     || stripHasEnv development (StripBoolean true) = true
  /\ PRESERVE_CONTEXTS development = []
  /\ ~ In (toLowerCase "debug") (PRESERVE_LEVELS development).
Proof.
  apply (@X22_removed_only_under_matching_policy development
           (statementPath "a.js" (doSomething assignment) 0)
           (optionsWith None (StripBoolean true))
           (fst (normalizeOpts development (optionsWith None (StripBoolean true))))
           "debug" 7 (ExpressionStatement false assignment) eq_refl).
  reflexivity.
Defined.
